(** * Telecom reliability pipeline (01_data_ingestion.py)

    A shallow embedding of the Delta Live Tables notebook: the bronze,
    silver and gold datasets are functions on lists of rows, written with
    the DataFrame operators the notebook calls ([join], [groupBy], [agg],
    [F.window], [F.count], [F.when], [F.first], [F.sum], [F.avg], [F.max],
    [F.min]) and the DLT expectation decorators.

    Conventions.
    - A nullable column is an [option]; SQL conditions are three-valued
      ([option bool]).
    - A timestamp is a [Z], the number of microseconds since the epoch.
    - A DataFrame is a list of rows; the result of [groupBy] is a finite
      map from the grouping key to the rows of the group, in input order.
    - Durations and coordinates are exact rationals ([Q]); rounding of
      doubles is outside the model.
    - Only the columns the notebook names are kept in the row types. *)

From Stdlib Require Import QArith Qminmax.
From stdpp Require Import gmap strings list fin_maps numbers.

Close Scope Q_scope.
Open Scope Z_scope.

(** ** SQL expressions and aggregate functions *)

Module F.

(** [col == lit] : null when the column is null. *)
Definition eq_lit (c : option string) (s : string) : option bool :=
  (λ x, bool_decide (x = s)) <$> c.

(** [col IS NOT NULL] is never null itself. *)
Definition is_not_null {V} (c : option V) : option bool :=
  Some (bool_decide (is_Some c)).

Definition Qltb (a b : Q) : bool :=
  match (a ?= b)%Q with Lt => true | _ => false end.

(** [col > 0] on a numeric column. *)
Definition gt_zero (c : option Q) : option bool :=
  Qltb 0 <$> c.

(** A condition holds for a row only when it evaluates to true. *)
Definition holds (c : option bool) : bool :=
  match c with Some true => true | _ => false end.

(** [F.when(c, v)] without [otherwise]: null unless [c] is true. *)
Definition when {V} (c : option bool) (v : option V) : option V :=
  if holds c then v else None.

Definition lit {V} (v : V) : option V := Some v.

(** The non-null values of a column. *)
Definition non_null {V} (col : list (option V)) : list V := omap id col.

(** [F.count(e)] counts the rows where [e] is not null. *)
Definition count {V} (col : list (option V)) : Z :=
  Z.of_nat (length (non_null col)).

(** [F.first(e)]: the value of the first row of the group, null or not. *)
Definition first {V} (col : list (option V)) : option V :=
  head col ≫= id.

(** [F.sum(e)]: null when no row has a value. *)
Definition sum (col : list (option Z)) : option Z :=
  match non_null col with
  | [] => None
  | vs => Some (foldr Z.add 0 vs)
  end.

Definition Qsum (vs : list Q) : Q := foldr Qplus 0%Q vs.

(** [F.avg(e)]: sum of the non-null values over their number, as the
    exact quotient.  Spark computes it in doubles; the value here is the
    real number that result approximates, and no statement below relies
    on how the double result is rounded. *)
Definition avg (col : list (option Q)) : option Q :=
  match non_null col with
  | [] => None
  | vs => Some (Qsum vs / inject_Z (Z.of_nat (length vs)))%Q
  end.

Definition max (col : list (option Q)) : option Q :=
  match non_null col with
  | [] => None
  | v :: vs => Some (foldr Qmax v vs)
  end.

Definition min (col : list (option Q)) : option Q :=
  match non_null col with
  | [] => None
  | v :: vs => Some (foldr Qmin v vs)
  end.

(** [F.window(ts, d)]: the tumbling window [start, end) of length [d]
    that contains [ts]; windows are aligned on the epoch. *)
Definition window (d : Z) (ts : Z) : Z * Z :=
  (d * (ts / d), d * (ts / d) + d).

End F.

Definition minute : Z := 60 * 1000000.
Definition hour : Z := 60 * minute.
Definition day : Z := 24 * hour.

(** ** DataFrame operators *)

(** Inner join on a three-valued condition: every pair of a left and a
    right row for which the condition is true. *)
Definition join {A B} (left : list A) (right : list B)
    (on : A → B → option bool) : list (A * B) :=
  flat_map (λ a, (λ b, (a, b)) <$> filter (λ b, F.holds (on a b) = true) right) left.

(** [df.groupBy(key)]: rows whose key cannot be computed (a null time
    column under [F.window]) belong to no group. *)
Definition groupBy `{Countable K} {A} (key : A → option K) (df : list A)
    : gmap K (list A) :=
  foldr (λ r m,
         match key r with
         | Some k => partial_alter (λ g, Some (r :: default [] g)) k m
         | None => m
         end) ∅ df.

(** [groupBy(key).agg(f)]: one row per group. *)
Definition agg `{Countable K} {A R} (f : K → list A → R)
    (groups : gmap K (list A)) : gmap K R :=
  map_imap (λ k g, Some (f k g)) groups.

(** The rows of an aggregated DataFrame. *)
Definition rows `{Countable K} {R} (m : gmap K R) : list R :=
  (map_to_list m).*2.

(** ** Delta Live Tables expectations *)

Module dlt.

(** [@dlt.expect] keeps a violating record and reports it;
    [@dlt.expect_or_drop] removes it from the target. *)
Inductive policy := expect | expect_or_drop.

Record expectation (A : Type) := Expectation {
  on_violation : policy;
  name : string;
  constraint : A → option bool
}.
Arguments Expectation {A}.
Arguments on_violation {A}.
Arguments name {A}.
Arguments constraint {A}.

(** A record passes a constraint that evaluates to true. *)
Definition violates {A} (e : expectation A) (r : A) : bool :=
  negb (F.holds (constraint e r)).

Definition keeps {A} (e : expectation A) (r : A) : bool :=
  match on_violation e with
  | expect => true
  | expect_or_drop => negb (violates e r)
  end.

(** The quality flags of a record: the expectations it violates. *)
Definition flags {A} (es : list (expectation A)) (r : A) : list string :=
  name <$> filter (λ e, violates e r = true) es.

(** The rows a decorated query writes to its table. *)
Definition table {A} (es : list (expectation A)) (query : list A) : list A :=
  filter (λ r, forallb (λ e, keeps e r) es = true) query.

(** The failed-record count reported for each expectation. *)
Definition failed_records {A} (es : list (expectation A)) (query : list A)
    : list (string * nat) :=
  (λ e, (name e, length (filter (λ r, violates e r = true) query))) <$> es.

End dlt.

(** ** Row types *)

(** cell_towers.json.gz: one GeoJSON feature per tower. *)
Module TowerJson.
Record properties := {
  GlobalID : option string;
  LocCity : option string;
  LocCounty : option string;
  LocState : option string
}.
Record geometry := { coordinates : list Q }.
Record row := { properties_ : properties; geometry_ : geometry }.
End TowerJson.

Module Tower.
Record row := {
  GlobalID : option string;
  City : option string;
  County : option string;
  State : option string;
  Longitude : option Q;
  Latitude : option Q
}.
End Tower.

Module Cdr.
Record row := {
  towerId : option string;
  type : option string;
  status : option string;
  event_ts : option Z
}.
End Cdr.

Module Pcmd.
Record row := {
  towerId : option string;
  ProcedureId : option string;
  ProcedureDuration : option Q;
  event_ts : option Z
}.
End Pcmd.

(** Columns of cdr_stream_minute_gold, in [select] order. *)
Module CdrMinute.
Record row := {
  date : option Z;
  towerId : option string;
  answered : Z;
  dropped : Z;
  missed : Z;
  call : Z;
  text : Z;
  totalRecords_CDR : Z;
  Latitude : option Q;
  Longitude : option Q;
  City : option string;
  County : option string;
  State : option string
}.
End CdrMinute.

(** Columns of pcmd_stream_minute_gold, in [select] order. *)
Module PcmdMinute.
Record row := {
  date : option Z;
  towerId : option string;
  avg_dur_request_to_release_bearer : option Q;
  avg_dur_notification_data_sent_to_UE : option Q;
  avg_dur_request_to_setup_bearer : option Q;
  max_dur_request_to_release_bearer : option Q;
  max_dur_notification_data_sent_to_UE : option Q;
  max_dur_request_to_setup_bearer : option Q;
  min_dur_request_to_release_bearer : option Q;
  min_dur_notification_data_sent_to_UE : option Q;
  min_dur_request_to_setup_bearer : option Q;
  totalRecords_PCMD : Z;
  Latitude : option Q;
  Longitude : option Q;
  City : option string;
  County : option string;
  State : option string
}.
End PcmdMinute.

(** The six counter columns the hour and day tables sum. *)
Module CdrCounts.
Record row := {
  dropped : option Z;
  answered : option Z;
  missed : option Z;
  text : option Z;
  call : option Z;
  totalRecords_CDR : option Z
}.
End CdrCounts.

(** Columns of cdr_stream_hour_gold and cdr_stream_day_gold: the grouping
    columns [window] and [towerId], then the aggregates. *)
Module CdrRollup.
Record row := {
  window : Z * Z;
  towerId : option string;
  dropped : option Z;
  answered : option Z;
  missed : option Z;
  text : option Z;
  call : option Z;
  totalRecords_CDR : option Z;
  City : option string;
  County : option string;
  State : option string;
  Latitude : option Q;
  Longitude : option Q;
  datetime : option Z
}.

Definition counts (r : row) : CdrCounts.row :=
  {| CdrCounts.dropped := dropped r;
     CdrCounts.answered := answered r;
     CdrCounts.missed := missed r;
     CdrCounts.text := text r;
     CdrCounts.call := call r;
     CdrCounts.totalRecords_CDR := totalRecords_CDR r |}.
End CdrRollup.

(** ** Silver layer *)

(** [static_tower_data]: the tower columns selected from the GeoJSON. *)
Definition static_tower_data (df_towers : list TowerJson.row) : list Tower.row :=
  (λ t,
     let p := TowerJson.properties_ t in
     let c := TowerJson.coordinates (TowerJson.geometry_ t) in
     {| Tower.GlobalID := TowerJson.GlobalID p;
        Tower.City := TowerJson.LocCity p;
        Tower.County := TowerJson.LocCounty p;
        Tower.State := TowerJson.LocState p;
        Tower.Longitude := c !! 0%nat;
        Tower.Latitude := c !! 1%nat |}) <$> df_towers.

(** [a == b] between two nullable string columns. *)
Definition col_eq (a b : option string) : option bool :=
  x ← a; y ← b; Some (bool_decide (x = y)).

Definition cdr_expectations : list (dlt.expectation (Cdr.row * Tower.row)) :=
  [ dlt.Expectation dlt.expect_or_drop "towerId"
      (λ r, F.is_not_null (Cdr.towerId r.1));
    dlt.Expectation dlt.expect_or_drop "type"
      (λ r, F.is_not_null (Cdr.type r.1)) ].

(** [cdr_stream_silver]: the CDR stream joined with the towers, under the
    two drop expectations. *)
Definition cdr_stream_silver (df_towers : list Tower.row)
    (df_cdr_bronze : list Cdr.row) : list (Cdr.row * Tower.row) :=
  dlt.table cdr_expectations
    (join df_cdr_bronze df_towers
       (λ c t, col_eq (Cdr.towerId c) (Tower.GlobalID t))).

Definition pcmd_expectations : list (dlt.expectation (Pcmd.row * Tower.row)) :=
  [ dlt.Expectation dlt.expect_or_drop "towerId"
      (λ r, F.is_not_null (Pcmd.towerId r.1));
    dlt.Expectation dlt.expect_or_drop "ProcedureId"
      (λ r, F.is_not_null (Pcmd.ProcedureId r.1));
    dlt.Expectation dlt.expect "ProcedureDuration"
      (λ r, F.gt_zero (Pcmd.ProcedureDuration r.1)) ].

(** [pcmd_stream_silver]: the PCMD stream joined with the towers, under
    two drop expectations and one reporting expectation. *)
Definition pcmd_stream_silver (df_towers : list Tower.row)
    (df_pcmd_bronze : list Pcmd.row) : list (Pcmd.row * Tower.row) :=
  dlt.table pcmd_expectations
    (join df_pcmd_bronze df_towers
       (λ p t, col_eq (Pcmd.towerId p) (Tower.GlobalID t))).

(** ** Gold layer, by minute *)

(** A grouping key: the window struct and the tower id. *)
Abbreviation Key := ((Z * Z) * option string)%type.

(** [groupBy(F.window("event_ts", "1 minute"), "towerId")] on the CDR
    silver table. *)
Definition cdr_minute_key (r : Cdr.row * Tower.row) : option Key :=
  ts ← Cdr.event_ts r.1; Some (F.window minute ts, Cdr.towerId r.1).

(** The aggregates of one CDR group, with the columns ordered as the
    final [select] does. *)
Definition cdr_minute_agg (k : Key) (g : list (Cdr.row * Tower.row))
    : CdrMinute.row :=
  let status_is s :=
    F.count ((λ r, F.when (F.eq_lit (Cdr.status r.1) s) (F.lit true)) <$> g) in
  let type_is s :=
    F.count ((λ r, F.when (F.eq_lit (Cdr.type r.1) s) (F.lit true)) <$> g) in
  let window_start := F.first ((λ _, Some k.1.1) <$> g) in
  {| CdrMinute.date := window_start;
     CdrMinute.towerId := k.2;
     CdrMinute.answered := status_is "answered";
     CdrMinute.dropped := status_is "dropped";
     CdrMinute.missed := status_is "missed";
     CdrMinute.call := type_is "call";
     CdrMinute.text := type_is "text";
     CdrMinute.totalRecords_CDR := F.count ((λ _, F.lit 1) <$> g);
     CdrMinute.Latitude := F.first ((λ r, Tower.Latitude r.2) <$> g);
     CdrMinute.Longitude := F.first ((λ r, Tower.Longitude r.2) <$> g);
     CdrMinute.City := F.first ((λ r, Tower.City r.2) <$> g);
     CdrMinute.County := F.first ((λ r, Tower.County r.2) <$> g);
     CdrMinute.State := F.first ((λ r, Tower.State r.2) <$> g) |}.

(** The minute buckets of the CDR silver table, by grouping key. *)
Definition cdr_minute_buckets (df_cdr_silver : list (Cdr.row * Tower.row))
    : gmap Key CdrMinute.row :=
  agg cdr_minute_agg (groupBy cdr_minute_key df_cdr_silver).

Definition cdr_stream_minute_gold (df_cdr_silver : list (Cdr.row * Tower.row))
    : list CdrMinute.row :=
  rows (cdr_minute_buckets df_cdr_silver).

(** [groupBy(F.window("event_ts", "1 minute"), "towerId")] on the PCMD
    silver table. *)
Definition pcmd_minute_key (r : Pcmd.row * Tower.row) : option Key :=
  ts ← Pcmd.event_ts r.1; Some (F.window minute ts, Pcmd.towerId r.1).

(** [F.when(F.col("ProcedureId") == id, F.col("ProcedureDuration"))] over
    the rows of a group. *)
Definition dur_when (id : string) (g : list (Pcmd.row * Tower.row))
    : list (option Q) :=
  (λ r, F.when (F.eq_lit (Pcmd.ProcedureId r.1) id)
               (Pcmd.ProcedureDuration r.1)) <$> g.

Definition pcmd_minute_agg (k : Key) (g : list (Pcmd.row * Tower.row))
    : PcmdMinute.row :=
  let window_start := F.first ((λ _, Some k.1.1) <$> g) in
  {| PcmdMinute.date := window_start;
     PcmdMinute.towerId := k.2;
     PcmdMinute.avg_dur_request_to_release_bearer := F.avg (dur_when "11" g);
     PcmdMinute.avg_dur_notification_data_sent_to_UE := F.avg (dur_when "15" g);
     PcmdMinute.avg_dur_request_to_setup_bearer := F.avg (dur_when "16" g);
     PcmdMinute.max_dur_request_to_release_bearer := F.max (dur_when "11" g);
     PcmdMinute.max_dur_notification_data_sent_to_UE := F.max (dur_when "15" g);
     PcmdMinute.max_dur_request_to_setup_bearer := F.max (dur_when "16" g);
     PcmdMinute.min_dur_request_to_release_bearer := F.min (dur_when "11" g);
     PcmdMinute.min_dur_notification_data_sent_to_UE := F.min (dur_when "15" g);
     PcmdMinute.min_dur_request_to_setup_bearer := F.min (dur_when "16" g);
     PcmdMinute.totalRecords_PCMD := F.count ((λ _, F.lit 1) <$> g);
     PcmdMinute.Latitude := F.first ((λ r, Tower.Latitude r.2) <$> g);
     PcmdMinute.Longitude := F.first ((λ r, Tower.Longitude r.2) <$> g);
     PcmdMinute.City := F.first ((λ r, Tower.City r.2) <$> g);
     PcmdMinute.County := F.first ((λ r, Tower.County r.2) <$> g);
     PcmdMinute.State := F.first ((λ r, Tower.State r.2) <$> g) |}.

Definition pcmd_minute_buckets (df_pcmd_silver : list (Pcmd.row * Tower.row))
    : gmap Key PcmdMinute.row :=
  agg pcmd_minute_agg (groupBy pcmd_minute_key df_pcmd_silver).

Definition pcmd_stream_minute_gold (df_pcmd_silver : list (Pcmd.row * Tower.row))
    : list PcmdMinute.row :=
  rows (pcmd_minute_buckets df_pcmd_silver).

(** ** Gold layer, by hour and by day *)

(** The counter columns of a gold table, as the rollups read them. *)
Class Counters (X : Type) := counters : X → CdrCounts.row.

#[export] Instance minute_counters : Counters CdrMinute.row := λ r,
  {| CdrCounts.dropped := Some (CdrMinute.dropped r);
     CdrCounts.answered := Some (CdrMinute.answered r);
     CdrCounts.missed := Some (CdrMinute.missed r);
     CdrCounts.text := Some (CdrMinute.text r);
     CdrCounts.call := Some (CdrMinute.call r);
     CdrCounts.totalRecords_CDR := Some (CdrMinute.totalRecords_CDR r) |}.

#[export] Instance rollup_counters : Counters CdrRollup.row := CdrRollup.counts.

#[export] Instance counts_counters : Counters CdrCounts.row := id.

(** The six [F.sum] aggregates the hour and the day table share: the
    combine step of the rollup. *)
Definition combine `{Counters X} (g : list X) : CdrCounts.row :=
  {| CdrCounts.dropped := F.sum ((λ r, CdrCounts.dropped (counters r)) <$> g);
     CdrCounts.answered := F.sum ((λ r, CdrCounts.answered (counters r)) <$> g);
     CdrCounts.missed := F.sum ((λ r, CdrCounts.missed (counters r)) <$> g);
     CdrCounts.text := F.sum ((λ r, CdrCounts.text (counters r)) <$> g);
     CdrCounts.call := F.sum ((λ r, CdrCounts.call (counters r)) <$> g);
     CdrCounts.totalRecords_CDR :=
       F.sum ((λ r, CdrCounts.totalRecords_CDR (counters r)) <$> g) |}.

(** [groupBy(F.window("date", d), "towerId")] on the minute table. *)
Definition cdr_rollup_key (d : Z) (r : CdrMinute.row) : option Key :=
  ts ← CdrMinute.date r; Some (F.window d ts, CdrMinute.towerId r).

Definition cdr_rollup_agg (k : Key) (g : list CdrMinute.row) : CdrRollup.row :=
  let s := combine g in
  {| CdrRollup.window := k.1;
     CdrRollup.towerId := k.2;
     CdrRollup.dropped := CdrCounts.dropped s;
     CdrRollup.answered := CdrCounts.answered s;
     CdrRollup.missed := CdrCounts.missed s;
     CdrRollup.text := CdrCounts.text s;
     CdrRollup.call := CdrCounts.call s;
     CdrRollup.totalRecords_CDR := CdrCounts.totalRecords_CDR s;
     CdrRollup.City := F.first (CdrMinute.City <$> g);
     CdrRollup.County := F.first (CdrMinute.County <$> g);
     CdrRollup.State := F.first (CdrMinute.State <$> g);
     CdrRollup.Latitude := F.first (CdrMinute.Latitude <$> g);
     CdrRollup.Longitude := F.first (CdrMinute.Longitude <$> g);
     CdrRollup.datetime := F.first ((λ _, Some k.1.1) <$> g) |}.

Definition cdr_rollup_buckets (d : Z) (df_cdr_minute_gold : list CdrMinute.row)
    : gmap Key CdrRollup.row :=
  agg cdr_rollup_agg (groupBy (cdr_rollup_key d) df_cdr_minute_gold).

Definition cdr_stream_hour_gold (df_cdr_minute_gold : list CdrMinute.row)
    : list CdrRollup.row :=
  rows (cdr_rollup_buckets hour df_cdr_minute_gold).

Definition cdr_stream_day_gold (df_cdr_minute_gold : list CdrMinute.row)
    : list CdrRollup.row :=
  rows (cdr_rollup_buckets day df_cdr_minute_gold).

(** ** The pipeline graph *)

(** The datasets the notebook declares and, for each, the datasets it
    reads with [dlt.read] or [dlt.read_stream]. *)
Module Graph.
Inductive dataset :=
| cdr_stream_bronze | pcmd_stream_bronze | static_tower_data
| cdr_stream_silver | pcmd_stream_silver
| cdr_stream_minute_gold | pcmd_stream_minute_gold
| cdr_stream_hour_gold | cdr_stream_day_gold.

Definition all : list dataset :=
  [ cdr_stream_bronze; pcmd_stream_bronze; static_tower_data;
    cdr_stream_silver; pcmd_stream_silver;
    cdr_stream_minute_gold; pcmd_stream_minute_gold;
    cdr_stream_hour_gold; cdr_stream_day_gold ].

Definition reads (d : dataset) : list dataset :=
  match d with
  | cdr_stream_bronze | pcmd_stream_bronze | static_tower_data => []
  | cdr_stream_silver => [static_tower_data; cdr_stream_bronze]
  | pcmd_stream_silver => [static_tower_data; pcmd_stream_bronze]
  | cdr_stream_minute_gold => [cdr_stream_silver]
  | pcmd_stream_minute_gold => [pcmd_stream_silver]
  | cdr_stream_hour_gold => [cdr_stream_minute_gold]
  | cdr_stream_day_gold => [cdr_stream_minute_gold]
  end.

#[export] Instance dataset_eq_dec : EqDecision dataset.
Proof. solve_decision. Defined.

(** The datasets computed from [d]. *)
Definition consumers (d : dataset) : list dataset :=
  filter (λ c, d ∈ reads c) all.
End Graph.

(** ** Vocabulary of the statements *)

(** The rows of [df] that fall in the group of key [k]. *)
Definition group_of `{Countable K} {A} (key : A → option K) (k : K)
    (df : list A) : list A :=
  filter (λ r, key r = Some k) df.

(** A counter of a bucket that may not exist yet: zero before the first
    event of the window. *)
Definition counter_of {R} (f : R → Z) (b : option R) : Z := default 0 (f <$> b).

(** 1 when the nullable column holds the given value, else 0. *)
Definition indicator (c : option string) (s : string) : Z :=
  if bool_decide (c = Some s) then 1 else 0.

(** The directory has a record that joins with the tower id. *)
Definition tower_known (df_towers : list Tower.row) (id : option string) : Prop :=
  Exists (λ t, col_eq id (Tower.GlobalID t) = Some true) df_towers.

(** The records of the directory that join with the tower id. *)
Definition tower_records (df_towers : list Tower.row) (id : option string)
    : list Tower.row :=
  filter (λ t, F.holds (col_eq id (Tower.GlobalID t)) = true) df_towers.

(** The minute rows of a tower whose window start lies in the window [w]. *)
Definition in_window (w : Z * Z) (tower : option string) (r : CdrMinute.row) : Prop :=
  CdrMinute.towerId r = tower ∧
  ∃ ts, CdrMinute.date r = Some ts ∧ w.1 ≤ ts < w.2.

#[export] Instance in_window_dec w tower r : Decision (in_window w tower r).
Proof.
  unfold in_window. destruct (CdrMinute.date r) as [ts|].
  - destruct (decide (CdrMinute.towerId r = tower ∧ w.1 ≤ ts < w.2)) as [Hd|Hd].
    + left. destruct Hd as [? ?]. eauto.
    + right. intros [? (ts' & [= <-] & ?)]. apply Hd. auto.
  - right. intros [_ (ts' & [=] & _)].
Defined.

Definition Zsum (vs : list Z) : Z := foldr Z.add 0 vs.

(** A rollup row of duration [d] is the sum, counter by counter, of the
    minute rows of its tower whose window start lies in its window. *)
Definition rollup_of_minutes (d : Z) (table : list CdrMinute.row)
    (b : CdrRollup.row) : Prop :=
  let w := CdrRollup.window b in
  let members := filter (in_window w (CdrRollup.towerId b)) table in
  w.2 = w.1 + d ∧ w.1 `mod` d = 0 ∧
  CdrRollup.dropped b = Some (Zsum (CdrMinute.dropped <$> members)) ∧
  CdrRollup.answered b = Some (Zsum (CdrMinute.answered <$> members)) ∧
  CdrRollup.missed b = Some (Zsum (CdrMinute.missed <$> members)) ∧
  CdrRollup.text b = Some (Zsum (CdrMinute.text <$> members)) ∧
  CdrRollup.call b = Some (Zsum (CdrMinute.call <$> members)) ∧
  CdrRollup.totalRecords_CDR b =
    Some (Zsum (CdrMinute.totalRecords_CDR <$> members)).

(** The procedure ids the PCMD aggregation tracks, with the columns of
    each. *)
Definition tracked : list string := ["11"; "15"; "16"].

Definition is_tracked (id : option string) : Prop :=
  ∃ s, id = Some s ∧ s ∈ tracked.

Definition avg_dur (id : string) (b : PcmdMinute.row) : option Q :=
  if bool_decide (id = "11") then PcmdMinute.avg_dur_request_to_release_bearer b
  else if bool_decide (id = "15") then PcmdMinute.avg_dur_notification_data_sent_to_UE b
  else if bool_decide (id = "16") then PcmdMinute.avg_dur_request_to_setup_bearer b
  else None.

Definition max_dur (id : string) (b : PcmdMinute.row) : option Q :=
  if bool_decide (id = "11") then PcmdMinute.max_dur_request_to_release_bearer b
  else if bool_decide (id = "15") then PcmdMinute.max_dur_notification_data_sent_to_UE b
  else if bool_decide (id = "16") then PcmdMinute.max_dur_request_to_setup_bearer b
  else None.

Definition min_dur (id : string) (b : PcmdMinute.row) : option Q :=
  if bool_decide (id = "11") then PcmdMinute.min_dur_request_to_release_bearer b
  else if bool_decide (id = "15") then PcmdMinute.min_dur_notification_data_sent_to_UE b
  else if bool_decide (id = "16") then PcmdMinute.min_dur_request_to_setup_bearer b
  else None.

(** The nine duration columns of a PCMD bucket. *)
Definition durations (b : PcmdMinute.row) : list (option Q) :=
  [ PcmdMinute.avg_dur_request_to_release_bearer b;
    PcmdMinute.avg_dur_notification_data_sent_to_UE b;
    PcmdMinute.avg_dur_request_to_setup_bearer b;
    PcmdMinute.max_dur_request_to_release_bearer b;
    PcmdMinute.max_dur_notification_data_sent_to_UE b;
    PcmdMinute.max_dur_request_to_setup_bearer b;
    PcmdMinute.min_dur_request_to_release_bearer b;
    PcmdMinute.min_dur_notification_data_sent_to_UE b;
    PcmdMinute.min_dur_request_to_setup_bearer b ].

(** The mean of a non-empty list of durations: their sum divided once by
    their number. *)
Definition mean (ds : list Q) : Q :=
  (F.Qsum ds / inject_Z (Z.of_nat (length ds)))%Q.

(** Some dataset of the pipeline is computed from the PCMD minute table. *)
Definition pcmd_rolled_up : Prop :=
  ∃ d, Graph.pcmd_stream_minute_gold ∈ Graph.reads d.

(** The durations of the events of a group that carry procedure [id]. *)
Definition durations_of (id : string) (g : list (Pcmd.row * Tower.row)) : list Q :=
  F.non_null (dur_when id g).

(** The same, read off the rows and not off the aggregation: the rows
    whose ProcedureId is [id], then their durations where set. *)
Definition procedure_durations (id : string) (g : list (Pcmd.row * Tower.row))
    : list Q :=
  omap (λ r, Pcmd.ProcedureDuration r.1)
       (filter (λ r, Pcmd.ProcedureId r.1 = Some id) g).

(** A window is sealed, under a watermark with the given allowed
    lateness, once some event already seen has an event time past the end
    of the window plus the lateness. *)
Definition sealed (allowedLateness : Z) (seen : list (Cdr.row * Tower.row))
    (w : Z * Z) : Prop :=
  ∃ r ts, r ∈ seen ∧ Cdr.event_ts r.1 = Some ts ∧ w.2 + allowedLateness < ts.

(** The watermark policy, as a property of the minute aggregation: an
    event that arrives when its window is already sealed changes no
    bucket. *)
Definition drops_late_events (allowedLateness : Z) : Prop :=
  ∀ seen e ts,
    Cdr.event_ts e.1 = Some ts →
    sealed allowedLateness seen (F.window minute ts) →
    cdr_minute_buckets (seen ++ [e]) = cdr_minute_buckets seen.

(** ** Scenarios *)

(** A time of day on the first day of the epoch. *)
Definition at_ (h m s : Z) : Z := ((h * 60 + m) * 60 + s) * 1000000.

Definition tower_T1 : Tower.row :=
  {| Tower.GlobalID := Some "T1"; Tower.City := Some "X";
     Tower.County := None; Tower.State := None;
     Tower.Longitude := Some (-75)%Q; Tower.Latitude := Some 40%Q |}.

Definition cdr (tower : string) (ty st : string) (ts : Z) : Cdr.row :=
  {| Cdr.towerId := Some tower; Cdr.type := Some ty;
     Cdr.status := Some st; Cdr.event_ts := Some ts |}.

(** Scenario A: two calls on T1 within the minute that starts at 10:00. *)
Definition scenario_A : list Cdr.row :=
  [ cdr "T1" "call" "dropped" (at_ 10 0 15);
    cdr "T1" "call" "answered" (at_ 10 0 45) ].

Definition scenario_A_bucket : CdrMinute.row :=
  {| CdrMinute.date := Some (at_ 10 0 0);
     CdrMinute.towerId := Some "T1";
     CdrMinute.answered := 1;
     CdrMinute.dropped := 1;
     CdrMinute.missed := 0;
     CdrMinute.call := 2;
     CdrMinute.text := 0;
     CdrMinute.totalRecords_CDR := 2;
     CdrMinute.Latitude := Some 40%Q;
     CdrMinute.Longitude := Some (-75)%Q;
     CdrMinute.City := Some "X";
     CdrMinute.County := None;
     CdrMinute.State := None |}.

(** Scenario B: four minute buckets of T1 within the hour that starts at
    10:00, ten records each. *)
Definition minute_bucket (tower : string) (ts : Z) (total : Z) : CdrMinute.row :=
  {| CdrMinute.date := Some ts;
     CdrMinute.towerId := Some tower;
     CdrMinute.answered := total;
     CdrMinute.dropped := 0;
     CdrMinute.missed := 0;
     CdrMinute.call := total;
     CdrMinute.text := 0;
     CdrMinute.totalRecords_CDR := total;
     CdrMinute.Latitude := Some 40%Q;
     CdrMinute.Longitude := Some (-75)%Q;
     CdrMinute.City := Some "X";
     CdrMinute.County := None;
     CdrMinute.State := None |}.

Definition scenario_B : list CdrMinute.row :=
  [ minute_bucket "T1" (at_ 10 0 0) 10; minute_bucket "T1" (at_ 10 1 0) 10;
    minute_bucket "T1" (at_ 10 2 0) 10; minute_bucket "T1" (at_ 10 3 0) 10 ].

Definition scenario_B_hour : CdrRollup.row :=
  {| CdrRollup.window := (at_ 10 0 0, at_ 11 0 0);
     CdrRollup.towerId := Some "T1";
     CdrRollup.dropped := Some 0;
     CdrRollup.answered := Some 40;
     CdrRollup.missed := Some 0;
     CdrRollup.text := Some 0;
     CdrRollup.call := Some 40;
     CdrRollup.totalRecords_CDR := Some 40;
     CdrRollup.City := Some "X";
     CdrRollup.County := None;
     CdrRollup.State := None;
     CdrRollup.Latitude := Some 40%Q;
     CdrRollup.Longitude := Some (-75)%Q;
     CdrRollup.datetime := Some (at_ 10 0 0) |}.

(** A text message of T1 at 10:00:50 whose status is missing. *)
Definition cdr_no_status : Cdr.row :=
  {| Cdr.towerId := Some "T1"; Cdr.type := Some "text";
     Cdr.status := None; Cdr.event_ts := Some (at_ 10 0 50) |}.

(** Scenario C: an event of a tower the directory does not list. *)
Definition scenario_C : Cdr.row := cdr "T9" "call" "answered" (at_ 10 0 15).

(** A straggler: an event of 10:00:15 that arrives after one of 10:10:00. *)
Definition straggler_seen : list (Cdr.row * Tower.row) :=
  [ (cdr "T1" "call" "answered" (at_ 10 10 0), tower_T1) ].

Definition straggler : Cdr.row * Tower.row :=
  (cdr "T1" "call" "dropped" (at_ 10 0 15), tower_T1).

(** PCMD events of T1 in the minute that starts at 10:00. *)
Definition pcmd (tower id : string) (dur : Q) (ts : Z) : Pcmd.row :=
  {| Pcmd.towerId := Some tower; Pcmd.ProcedureId := Some id;
     Pcmd.ProcedureDuration := Some dur; Pcmd.event_ts := Some ts |}.

Definition pcmd_negative : Pcmd.row := pcmd "T1" "11" (-5)%Q (at_ 10 0 20).

Definition pcmd_sample : list Pcmd.row :=
  [ pcmd "T1" "11" 7%Q (at_ 10 0 5); pcmd_negative;
    pcmd "T1" "15" 3%Q (at_ 10 0 30) ].

Definition pcmd_untracked : Pcmd.row := pcmd "T1" "42" 9%Q (at_ 10 0 40).

(** ** Vocabulary of the further properties *)

(** The ids of the directory are pairwise distinct (null ids apart). *)
Definition distinct_ids (df_towers : list Tower.row) : Prop :=
  NoDup (omap Tower.GlobalID df_towers).

(** The tower row selected from one GeoJSON feature. *)
Definition tower_of (f : TowerJson.row) (t : Tower.row) : Prop :=
  Tower.GlobalID t = TowerJson.GlobalID (TowerJson.properties_ f) ∧
  Tower.City t = TowerJson.LocCity (TowerJson.properties_ f) ∧
  Tower.County t = TowerJson.LocCounty (TowerJson.properties_ f) ∧
  Tower.State t = TowerJson.LocState (TowerJson.properties_ f) ∧
  Tower.Longitude t = TowerJson.coordinates (TowerJson.geometry_ f) !! 0%nat ∧
  Tower.Latitude t = TowerJson.coordinates (TowerJson.geometry_ f) !! 1%nat.

#[export] Instance tower_known_dec towers id : Decision (tower_known towers id).
Proof. unfold tower_known. apply _. Defined.

(** The silver rows one CDR event gives: one per matching tower record
    when its type is set, none otherwise. *)
Definition cdr_enriched (df_towers : list Tower.row) (c : Cdr.row)
    : list (Cdr.row * Tower.row) :=
  if decide (Cdr.type c = None) then []
  else (λ t, (c, t)) <$> tower_records df_towers (Cdr.towerId c).

Definition pcmd_enriched (df_towers : list Tower.row) (p : Pcmd.row)
    : list (Pcmd.row * Tower.row) :=
  if decide (Pcmd.ProcedureId p = None) then []
  else (λ t, (p, t)) <$> tower_records df_towers (Pcmd.towerId p).

(** The duration is set and greater than zero. *)
Definition duration_positive (d : option Q) : Prop :=
  ∃ x, d = Some x ∧ (0 < x)%Q.

#[export] Instance duration_positive_dec d : Decision (duration_positive d).
Proof.
  unfold duration_positive. destruct d as [x|].
  - destruct (Qlt_le_dec 0 x) as [Hlt|Hle].
    + left. eauto.
    + right. intros (y & [= <-] & Hy). by apply Qlt_not_le in Hy.
  - right. by intros (y & [=] & _).
Defined.

(** The number of rows of a list that satisfy a condition. *)
Definition count_where {A} (P : A → Prop) `{∀ x, Decision (P x)}
    (l : list A) : Z :=
  Z.of_nat (length (filter P l)).

(** The silver CDR rows of a tower whose event time lies in the window. *)
Definition event_in (w : Z * Z) (tower : option string)
    (r : Cdr.row * Tower.row) : Prop :=
  Cdr.towerId r.1 = tower ∧
  ∃ ts, Cdr.event_ts r.1 = Some ts ∧ w.1 ≤ ts < w.2.

#[export] Instance event_in_dec w tower r : Decision (event_in w tower r).
Proof.
  unfold event_in. destruct (Cdr.event_ts r.1) as [ts|].
  - destruct (decide (Cdr.towerId r.1 = tower ∧ w.1 ≤ ts < w.2)) as [Hd|Hd].
    + left. destruct Hd as [? ?]. eauto.
    + right. intros [? (ts' & [= <-] & ?)]. apply Hd. auto.
  - right. intros [_ (ts' & [=] & _)].
Defined.

(** The silver PCMD rows of a tower whose event time lies in the window. *)
Definition pcmd_event_in (w : Z * Z) (tower : option string)
    (r : Pcmd.row * Tower.row) : Prop :=
  Pcmd.towerId r.1 = tower ∧
  ∃ ts, Pcmd.event_ts r.1 = Some ts ∧ w.1 ≤ ts < w.2.

#[export] Instance pcmd_event_in_dec w tower r :
  Decision (pcmd_event_in w tower r).
Proof.
  unfold pcmd_event_in. destruct (Pcmd.event_ts r.1) as [ts|].
  - destruct (decide (Pcmd.towerId r.1 = tower ∧ w.1 ≤ ts < w.2)) as [Hd|Hd].
    + left. destruct Hd as [? ?]. eauto.
    + right. intros [? (ts' & [= <-] & ?)]. apply Hd. auto.
  - right. intros [_ (ts' & [=] & _)].
Defined.

(** A key satisfies a condition; a row without key does not. *)
Definition key_in {K A} (key : A → option K) (P : K → Prop) (r : A) : Prop :=
  from_option P False (key r).

#[export] Instance key_in_dec {K A} (key : A → option K) (P : K → Prop)
  `{∀ k, Decision (P k)} (r : A) : Decision (key_in key P r).
Proof. unfold key_in. destruct (key r); simpl; apply _. Defined.

(** The six counters of a minute row, and the counts they stand for over
    a list of silver rows. *)
Definition minute_counts (b : CdrMinute.row) : list Z :=
  [ CdrMinute.answered b; CdrMinute.dropped b; CdrMinute.missed b;
    CdrMinute.call b; CdrMinute.text b; CdrMinute.totalRecords_CDR b ].

Definition rollup_counts (b : CdrRollup.row) : list (option Z) :=
  [ CdrRollup.answered b; CdrRollup.dropped b; CdrRollup.missed b;
    CdrRollup.call b; CdrRollup.text b; CdrRollup.totalRecords_CDR b ].

Definition event_counts (evs : list (Cdr.row * Tower.row)) : list Z :=
  [ count_where (λ r, Cdr.status r.1 = Some "answered") evs;
    count_where (λ r, Cdr.status r.1 = Some "dropped") evs;
    count_where (λ r, Cdr.status r.1 = Some "missed") evs;
    count_where (λ r, Cdr.type r.1 = Some "call") evs;
    count_where (λ r, Cdr.type r.1 = Some "text") evs;
    Z.of_nat (length evs) ].

(** The location columns of a tower record and of the gold rows. *)
Definition tower_location (t : Tower.row) :=
  (Tower.City t, Tower.County t, Tower.State t,
   Tower.Latitude t, Tower.Longitude t).

Definition minute_location (b : CdrMinute.row) :=
  (CdrMinute.City b, CdrMinute.County b, CdrMinute.State b,
   CdrMinute.Latitude b, CdrMinute.Longitude b).

Definition pcmd_location (b : PcmdMinute.row) :=
  (PcmdMinute.City b, PcmdMinute.County b, PcmdMinute.State b,
   PcmdMinute.Latitude b, PcmdMinute.Longitude b).

Definition rollup_location (b : CdrRollup.row) :=
  (CdrRollup.City b, CdrRollup.County b, CdrRollup.State b,
   CdrRollup.Latitude b, CdrRollup.Longitude b).

(** The tower id of a gold row is set, is the id of the record, and the
    row carries the location of the record. *)
Definition located_at (id : option string)
    (loc : option string * option string * option string * option Q * option Q)
    (t : Tower.row) : Prop :=
  id ≠ None ∧ Tower.GlobalID t = id ∧ loc = tower_location t.

(** A GeoJSON feature of tower T2 without coordinates, and a directory
    file with it. *)
Definition feature (id city : string) (coords : list Q) : TowerJson.row :=
  {| TowerJson.properties_ :=
       {| TowerJson.GlobalID := Some id; TowerJson.LocCity := Some city;
          TowerJson.LocCounty := None; TowerJson.LocState := None |};
     TowerJson.geometry_ := {| TowerJson.coordinates := coords |} |}.

Definition towers_json : list TowerJson.row :=
  [ feature "T1" "X" [(-75)%Q; 40%Q]; feature "T2" "Y" [] ].

(** A directory that lists T1 twice. *)
Definition tower_T1_again : Tower.row :=
  {| Tower.GlobalID := Some "T1"; Tower.City := Some "Z";
     Tower.County := None; Tower.State := None;
     Tower.Longitude := None; Tower.Latitude := None |}.

Definition towers_twice : list Tower.row := [tower_T1; tower_T1_again].

(** An event without event time. *)
Definition cdr_no_time : Cdr.row :=
  {| Cdr.towerId := Some "T1"; Cdr.type := Some "call";
     Cdr.status := Some "answered"; Cdr.event_ts := None |}.

(** * Properties *)

(** ** Grouping and aggregation *)

Section GroupBy.
Context `{Countable K} {A R : Type}.
Implicit Types (key : A → option K) (df g : list A) (k : K).

Lemma group_of_cons key k r df :
  group_of key k (r :: df) =
    if decide (key r = Some k) then r :: group_of key k df
    else group_of key k df.
Proof. unfold group_of. rewrite filter_cons. by case_decide. Qed.

Lemma group_of_app key k df1 df2 :
  group_of key k (df1 ++ df2) = group_of key k df1 ++ group_of key k df2.
Proof. apply list.filter_app. Qed.

Lemma group_of_snoc key k df r :
  group_of key k (df ++ [r]) =
    group_of key k df ++ (if decide (key r = Some k) then [r] else []).
Proof.
  rewrite group_of_app. f_equal.
Qed.

Lemma elem_of_group_of key k df r :
  r ∈ group_of key k df ↔ r ∈ df ∧ key r = Some k.
Proof. unfold group_of. rewrite list_elem_of_filter. tauto. Qed.

(** A group holds the rows of its key, in input order; a key without
    rows has no group. *)
Lemma lookup_groupBy key df k :
  groupBy key df !! k =
    match group_of key k df with [] => None | g => Some g end.
Proof.
  induction df as [|r df IH]; simpl.
  - apply lookup_empty.
  - rewrite group_of_cons. destruct (key r) as [k'|] eqn:Hk.
    + destruct (decide (k' = k)) as [->|Hne].
      * rewrite lookup_partial_alter_eq, IH, decide_True by done.
        by destruct (group_of key k df).
      * rewrite lookup_partial_alter_ne, IH, decide_False by congruence.
        done.
    + by rewrite IH, decide_False.
Qed.

Lemma lookup_groupBy_Some key df k g :
  groupBy key df !! k = Some g ↔ g = group_of key k df ∧ g ≠ [].
Proof.
  rewrite lookup_groupBy. destruct (group_of key k df) as [|x l].
  - split; [done | by intros [-> ?]].
  - split; [by intros [= <-] | by intros [-> _]].
Qed.

Lemma lookup_agg (f : K → list A → R) key df k :
  agg f (groupBy key df) !! k = f k <$> groupBy key df !! k.
Proof.
  unfold agg. rewrite map_lookup_imap. by destruct (groupBy key df !! k).
Qed.

Lemma lookup_agg_Some (f : K → list A → R) key df k b :
  agg f (groupBy key df) !! k = Some b ↔
    b = f k (group_of key k df) ∧ group_of key k df ≠ [].
Proof.
  rewrite lookup_agg, fmap_Some. split.
  - intros (g & [-> ?]%lookup_groupBy_Some & ->). done.
  - intros [-> ?]. exists (group_of key k df).
    by rewrite lookup_groupBy_Some.
Qed.

(** The bucket of a key exists as soon as one row has the key. *)
Lemma lookup_agg_elem (f : K → list A → R) key df k r :
  r ∈ df → key r = Some k →
  agg f (groupBy key df) !! k = Some (f k (group_of key k df)).
Proof.
  intros Hr Hk. apply lookup_agg_Some. split; [done|].
  assert (r ∈ group_of key k df) as Hin by by apply elem_of_group_of.
  intros E. rewrite E in Hin. by apply not_elem_of_nil in Hin.
Qed.

(** A row that arrives changes the bucket of its own key only. *)
Lemma lookup_agg_snoc_ne (f : K → list A → R) key df r k :
  key r ≠ Some k →
  agg f (groupBy key (df ++ [r])) !! k = agg f (groupBy key df) !! k.
Proof.
  intros Hne. rewrite !lookup_agg, !lookup_groupBy, group_of_snoc.
  by rewrite decide_False, app_nil_r.
Qed.

Lemma lookup_agg_snoc_eq (f : K → list A → R) key df r k :
  key r = Some k →
  agg f (groupBy key (df ++ [r])) !! k =
    Some (f k (group_of key k df ++ [r])).
Proof.
  intros Hk. rewrite (lookup_agg_elem f key _ k r); [|set_solver|done].
  by rewrite group_of_snoc, decide_True.
Qed.

Lemma elem_of_rows (m : gmap K R) b : b ∈ rows m ↔ ∃ k, m !! k = Some b.
Proof.
  unfold rows. rewrite list_elem_of_fmap. split.
  - intros ([k b'] & -> & Hkb). exists k. by apply elem_of_map_to_list.
  - intros [k Hk]. exists (k, b). split; [done|]. by apply elem_of_map_to_list.
Qed.
End GroupBy.

(** ** Aggregate functions *)

Lemma count_app {V} (c1 c2 : list (option V)) :
  F.count (c1 ++ c2) = F.count c1 + F.count c2.
Proof.
  unfold F.count, F.non_null. rewrite omap_app, length_app. lia.
Qed.

Lemma count_nil {V} : F.count (@nil (option V)) = 0.
Proof. done. Qed.

Lemma count_when_eq (c : option string) (s : string) :
  F.count [F.when (F.eq_lit c s) (F.lit true)] = indicator c s.
Proof.
  unfold indicator, F.when, F.eq_lit, F.lit.
  destruct c as [x|]; simpl; repeat case_bool_decide; simplify_eq; done.
Qed.

Lemma count_lit {A V} (v : V) (g : list A) :
  F.count ((λ _, F.lit v) <$> g) = Z.of_nat (length g).
Proof.
  unfold F.count, F.non_null, F.lit. f_equal.
  induction g as [|r g IH]; simpl; [done|]. by f_equal.
Qed.

Lemma first_snoc {A V} (f : A → option V) (g : list A) (r : A) :
  F.first (f <$> (g ++ [r])) =
    match g with [] => f r | _ => F.first (f <$> g) end.
Proof. by destruct g. Qed.

Lemma first_const {A V} (v : V) (g : list A) :
  g ≠ [] → F.first ((λ _, Some v) <$> g) = Some v.
Proof. by destruct g. Qed.

(** [F.window] floors the timestamp to a multiple of the duration. *)
Lemma window_floor (d ts : Z) :
  0 < d →
  (F.window d ts).1 ≤ ts < (F.window d ts).1 + d ∧
  (F.window d ts).2 = (F.window d ts).1 + d ∧
  (F.window d ts).1 `mod` d = 0.
Proof.
  intros Hd. unfold F.window. simpl. split_and!.
  - apply Z.mul_div_le. lia.
  - pose proof (Z.mod_pos_bound ts d Hd).
    pose proof (Z.div_mod ts d). lia.
  - done.
  - rewrite Z.mul_comm. apply Z.mod_mul. lia.
Qed.

(** Two timestamps share a window exactly when the second one lies in the
    window of the first. *)
Lemma window_eq_iff (d ts ts' : Z) :
  0 < d →
  F.window d ts' = F.window d ts ↔
    (F.window d ts).1 ≤ ts' < (F.window d ts).2.
Proof.
  intros Hd. unfold F.window. simpl.
  pose proof (Z.mod_pos_bound ts' d Hd).
  pose proof (Z.div_mod ts' d).
  split.
  - intros [= E]. lia.
  - intros Hin. assert (ts' / d = ts / d) as -> by nia. done.
Qed.

Lemma minute_pos : 0 < minute.
Proof. done. Qed.

Lemma hour_pos : 0 < hour.
Proof. done. Qed.

Lemma day_pos : 0 < day.
Proof. done. Qed.

(** ** CDR minute buckets *)

(** The counters of a group with one more row. *)
Lemma cdr_minute_agg_snoc k g e :
  let b := cdr_minute_agg k g in
  let b' := cdr_minute_agg k (g ++ [e]) in
  CdrMinute.dropped b' = CdrMinute.dropped b + indicator (Cdr.status e.1) "dropped" ∧
  CdrMinute.answered b' = CdrMinute.answered b + indicator (Cdr.status e.1) "answered" ∧
  CdrMinute.missed b' = CdrMinute.missed b + indicator (Cdr.status e.1) "missed" ∧
  CdrMinute.call b' = CdrMinute.call b + indicator (Cdr.type e.1) "call" ∧
  CdrMinute.text b' = CdrMinute.text b + indicator (Cdr.type e.1) "text" ∧
  CdrMinute.totalRecords_CDR b' = CdrMinute.totalRecords_CDR b + 1.
Proof.
  unfold cdr_minute_agg. simpl.
  rewrite !fmap_app, !count_app. simpl.
  rewrite !count_when_eq. split_and!; done.
Qed.

(** A bucket that does not exist counts as the aggregate of no rows. *)
Lemma cdr_counter_of_bucket (f : CdrMinute.row → Z) df k :
  f (cdr_minute_agg k []) = 0 →
  counter_of f (cdr_minute_buckets df !! k) =
    f (cdr_minute_agg k (group_of cdr_minute_key k df)).
Proof.
  intros Hf. unfold counter_of, cdr_minute_buckets.
  rewrite lookup_agg, lookup_groupBy.
  by destruct (group_of cdr_minute_key k df).
Qed.

(** The bucket of an arriving event: its counters step by the event's
    indicators, whatever was seen before. *)
Lemma cdr_minute_buckets_snoc df e ts :
  Cdr.event_ts e.1 = Some ts →
  let k := (F.window minute ts, Cdr.towerId e.1) in
  let old := cdr_minute_buckets df !! k in
  ∃ b, cdr_minute_buckets (df ++ [e]) !! k = Some b ∧
    CdrMinute.date b = Some (F.window minute ts).1 ∧
    CdrMinute.towerId b = Cdr.towerId e.1 ∧
    CdrMinute.dropped b =
      counter_of CdrMinute.dropped old + indicator (Cdr.status e.1) "dropped" ∧
    CdrMinute.answered b =
      counter_of CdrMinute.answered old + indicator (Cdr.status e.1) "answered" ∧
    CdrMinute.missed b =
      counter_of CdrMinute.missed old + indicator (Cdr.status e.1) "missed" ∧
    CdrMinute.call b =
      counter_of CdrMinute.call old + indicator (Cdr.type e.1) "call" ∧
    CdrMinute.text b =
      counter_of CdrMinute.text old + indicator (Cdr.type e.1) "text" ∧
    CdrMinute.totalRecords_CDR b =
      counter_of CdrMinute.totalRecords_CDR old + 1.
Proof.
  intros Hts k old.
  assert (cdr_minute_key e = Some k) as Hk.
  { unfold cdr_minute_key. by rewrite Hts. }
  eexists. split.
  { unfold cdr_minute_buckets. by apply lookup_agg_snoc_eq. }
  subst old. rewrite !cdr_counter_of_bucket by done.
  destruct (cdr_minute_agg_snoc k (group_of cdr_minute_key k df) e)
    as (? & ? & ? & ? & ? & ?).
  split_and!; try done.
  unfold cdr_minute_agg. simpl. apply first_const.
  by destruct (group_of cdr_minute_key k df).
Qed.

Lemma cdr_minute_buckets_snoc_ne df e k :
  cdr_minute_key e ≠ Some k →
  cdr_minute_buckets (df ++ [e]) !! k = cdr_minute_buckets df !! k.
Proof. intros Hne. unfold cdr_minute_buckets. by apply lookup_agg_snoc_ne. Qed.

(** C1. Every enriched CDR event goes to the bucket of its tower and of
    the minute that contains its event time (the event time floored to a
    multiple of one minute); in that bucket the counter of its status,
    the counter of its type and the total each grow by one, no other
    counter and no other bucket changes.  In scenario A the two events of
    T1 at 10:00:15 (dropped) and 10:00:45 (answered) give the single
    bucket of 10:00 with dropped 1, answered 1, missed 0, total 2 and
    city X. *)
Theorem cdr_minute_bucket_assignment :
  (∀ (df : list (Cdr.row * Tower.row)) (e : Cdr.row * Tower.row) (ts : Z),
     Cdr.event_ts e.1 = Some ts →
     let w := F.window minute ts in
     let k := (w, Cdr.towerId e.1) in
     let old := cdr_minute_buckets df !! k in
     (w.1 ≤ ts < w.1 + minute ∧ w.2 = w.1 + minute ∧ w.1 `mod` minute = 0) ∧
     (∃ b, cdr_minute_buckets (df ++ [e]) !! k = Some b ∧
        CdrMinute.date b = Some w.1 ∧
        CdrMinute.towerId b = Cdr.towerId e.1 ∧
        CdrMinute.dropped b =
          counter_of CdrMinute.dropped old + indicator (Cdr.status e.1) "dropped" ∧
        CdrMinute.answered b =
          counter_of CdrMinute.answered old + indicator (Cdr.status e.1) "answered" ∧
        CdrMinute.missed b =
          counter_of CdrMinute.missed old + indicator (Cdr.status e.1) "missed" ∧
        CdrMinute.call b =
          counter_of CdrMinute.call old + indicator (Cdr.type e.1) "call" ∧
        CdrMinute.text b =
          counter_of CdrMinute.text old + indicator (Cdr.type e.1) "text" ∧
        CdrMinute.totalRecords_CDR b =
          counter_of CdrMinute.totalRecords_CDR old + 1) ∧
     (∀ k', k' ≠ k →
        cdr_minute_buckets (df ++ [e]) !! k' = cdr_minute_buckets df !! k'))
  ∧ cdr_stream_minute_gold (cdr_stream_silver [tower_T1] scenario_A)
    = [scenario_A_bucket].
Proof.
  split; [|by vm_compute].
  intros df e ts Hts w k old. split_and!.
  - apply window_floor, minute_pos.
  - apply window_floor, minute_pos.
  - apply window_floor, minute_pos.
  - apply window_floor, minute_pos.
  - by apply cdr_minute_buckets_snoc.
  - intros k' Hne. apply cdr_minute_buckets_snoc_ne.
    unfold cdr_minute_key. rewrite Hts. simpl.
    intros [= E]. apply Hne. by rewrite <- E.
Qed.

(** ** Expectations and the enrichment join *)

Lemma elem_of_join {A B} (left : list A) (right : list B) on a b :
  (a, b) ∈ join left right on ↔
    a ∈ left ∧ b ∈ right ∧ on a b = Some true.
Proof.
  unfold join. rewrite list_elem_of_In, in_flat_map. split.
  - intros (a' & Ha' & Hin). apply list_elem_of_In in Ha', Hin.
    apply list_elem_of_fmap in Hin as (b' & [= -> ->] & Hb').
    apply list_elem_of_filter in Hb' as [Hon Hb']. split_and!; try done.
    unfold F.holds in Hon. by destruct (on a' b') as [[]|].
  - intros (Ha & Hb & Hon). exists a. split; [by apply list_elem_of_In|].
    apply list_elem_of_In, list_elem_of_fmap. exists b. split; [done|].
    apply list_elem_of_filter. split; [|done]. by rewrite Hon.
Qed.

Lemma join_app {A B} (l1 l2 : list A) (right : list B) on :
  join (l1 ++ l2) right on = join l1 right on ++ join l2 right on.
Proof. unfold join. apply flat_map_app. Qed.

Lemma filter_none {A} (P : A → Prop) `{∀ x, Decision (P x)} (l : list A) :
  (∀ x, x ∈ l → ¬ P x) → filter P l = [].
Proof.
  induction l as [|x l IH]; intros Hno; [done|].
  rewrite filter_cons, decide_False by (apply Hno; set_solver).
  apply IH. intros y Hy. apply Hno. set_solver.
Qed.

(** An event no record of the right side matches joins to nothing. *)
Lemma join_no_match {A B} (a : A) (right : list B) on :
  (∀ b, b ∈ right → on a b ≠ Some true) → join [a] right on = [].
Proof.
  intros Hno. unfold join. simpl. rewrite app_nil_r.
  rewrite filter_none; [done|].
  intros b Hb Hon. apply (Hno b Hb).
  unfold F.holds in Hon. by destruct (on a b) as [[]|].
Qed.

Lemma table_app {A} (es : list (dlt.expectation A)) (q1 q2 : list A) :
  dlt.table es (q1 ++ q2) = dlt.table es q1 ++ dlt.table es q2.
Proof. apply list.filter_app. Qed.

Lemma elem_of_table {A} (es : list (dlt.expectation A)) (q : list A) r :
  r ∈ dlt.table es q ↔
    r ∈ q ∧ ∀ e, e ∈ es → dlt.on_violation e = dlt.expect_or_drop →
             dlt.constraint e r = Some true.
Proof.
  unfold dlt.table. rewrite list_elem_of_filter, forallb_forall.
  split.
  - intros [Hk Hr]. split; [done|]. intros e He Hd.
    specialize (Hk e (proj1 (list_elem_of_In _ _) He)).
    unfold dlt.keeps, dlt.violates in Hk. rewrite Hd in Hk.
    unfold F.holds in Hk. by destruct (dlt.constraint e r) as [[]|].
  - intros [Hr Hk]. split; [|done]. intros e He%list_elem_of_In.
    unfold dlt.keeps, dlt.violates.
    destruct (dlt.on_violation e) eqn:Hd; [done|].
    by rewrite (Hk e He Hd).
Qed.

Lemma is_not_null_true {V} (c : option V) :
  F.is_not_null c = Some true ↔ c ≠ None.
Proof.
  unfold F.is_not_null. split.
  - intros [= Hc%bool_decide_eq_true]. by apply not_eq_None_Some.
  - intros Hc%not_eq_None_Some. f_equal. by apply bool_decide_eq_true.
Qed.

(** The CDR expectations keep the rows whose tower id and type are set. *)
Lemma elem_of_cdr_table q r :
  r ∈ dlt.table cdr_expectations q ↔
    r ∈ q ∧ Cdr.towerId r.1 ≠ None ∧ Cdr.type r.1 ≠ None.
Proof.
  rewrite elem_of_table. unfold cdr_expectations. split.
  - intros [Hr Hk]. split_and!; [done|..].
    + apply is_not_null_true.
      exact (Hk _ (list_elem_of_here _ _) eq_refl).
    + apply is_not_null_true.
      exact (Hk _ (list_elem_of_further _ _ _ (list_elem_of_here _ _)) eq_refl).
  - intros (Hr & Ht & Hy). split; [done|]. intros e He _.
    apply elem_of_cons in He as [->|He]; [by apply is_not_null_true|].
    apply list_elem_of_singleton in He as ->. by apply is_not_null_true.
Qed.

(** The PCMD expectations keep the rows whose tower id and procedure id
    are set; the duration constraint removes nothing. *)
Lemma elem_of_pcmd_table q r :
  r ∈ dlt.table pcmd_expectations q ↔
    r ∈ q ∧ Pcmd.towerId r.1 ≠ None ∧ Pcmd.ProcedureId r.1 ≠ None.
Proof.
  rewrite elem_of_table. unfold pcmd_expectations. split.
  - intros [Hr Hk]. split_and!; [done|..].
    + apply is_not_null_true.
      exact (Hk _ (list_elem_of_here _ _) eq_refl).
    + apply is_not_null_true.
      exact (Hk _ (list_elem_of_further _ _ _ (list_elem_of_here _ _)) eq_refl).
  - intros (Hr & Ht & Hy). split; [done|]. intros e He Hd.
    apply elem_of_cons in He as [->|He]; [by apply is_not_null_true|].
    apply elem_of_cons in He as [->|He]; [by apply is_not_null_true|].
    apply list_elem_of_singleton in He as ->. done.
Qed.

Lemma cdr_stream_silver_app towers b1 b2 :
  cdr_stream_silver towers (b1 ++ b2) =
    cdr_stream_silver towers b1 ++ cdr_stream_silver towers b2.
Proof. unfold cdr_stream_silver. by rewrite join_app, table_app. Qed.

Lemma pcmd_stream_silver_app towers b1 b2 :
  pcmd_stream_silver towers (b1 ++ b2) =
    pcmd_stream_silver towers b1 ++ pcmd_stream_silver towers b2.
Proof. unfold pcmd_stream_silver. by rewrite join_app, table_app. Qed.

Lemma tower_known_elem towers id t :
  t ∈ towers → col_eq id (Tower.GlobalID t) = Some true →
  tower_known towers id.
Proof.
  intros Ht Hon. apply Exists_exists. exists t.
  split; [by apply list_elem_of_In|done].
Qed.

(** Every silver row carries a tower the directory knows. *)
Lemma cdr_silver_known towers bronze r :
  r ∈ cdr_stream_silver towers bronze →
  r.1 ∈ bronze ∧ tower_known towers (Cdr.towerId r.1).
Proof.
  unfold cdr_stream_silver. rewrite elem_of_cdr_table. destruct r as [c t].
  rewrite elem_of_join. intros ((Hc & Ht & Hon) & _). split; [done|].
  by apply (tower_known_elem _ _ t).
Qed.

Lemma pcmd_silver_known towers bronze r :
  r ∈ pcmd_stream_silver towers bronze →
  r.1 ∈ bronze ∧ tower_known towers (Pcmd.towerId r.1).
Proof.
  unfold pcmd_stream_silver. rewrite elem_of_pcmd_table. destruct r as [c t].
  rewrite elem_of_join. intros ((Hc & Ht & Hon) & _). split; [done|].
  by apply (tower_known_elem _ _ t).
Qed.

Lemma cdr_silver_unknown towers c :
  ¬ tower_known towers (Cdr.towerId c) → cdr_stream_silver towers [c] = [].
Proof.
  intros Hun. unfold cdr_stream_silver. rewrite join_no_match; [done|].
  intros t Ht Hon. by apply Hun, (tower_known_elem _ _ t).
Qed.

Lemma pcmd_silver_unknown towers p :
  ¬ tower_known towers (Pcmd.towerId p) → pcmd_stream_silver towers [p] = [].
Proof.
  intros Hun. unfold pcmd_stream_silver. rewrite join_no_match; [done|].
  intros t Ht Hon. by apply Hun, (tower_known_elem _ _ t).
Qed.

Lemma nonempty_elem {A} (g : list A) : g ≠ [] → ∃ r, r ∈ g.
Proof. destruct g as [|r g]; [done|]. intros _. exists r. set_solver. Qed.



(** ** PCMD minute buckets *)

Lemma pcmd_bucket_of_elem df r k :
  r ∈ df → pcmd_minute_key r = Some k →
  pcmd_minute_buckets df !! k =
    Some (pcmd_minute_agg k (group_of pcmd_minute_key k df)).
Proof. intros Hr Hk. unfold pcmd_minute_buckets. by eapply lookup_agg_elem. Qed.

Lemma pcmd_total_records k g :
  PcmdMinute.totalRecords_PCMD (pcmd_minute_agg k g) = Z.of_nat (length g).
Proof. unfold pcmd_minute_agg. simpl. apply count_lit. Qed.


(** ** Towers of the gold rows *)

(** Every row of an aggregated table is the aggregate of the group of one
    of the input rows. *)
Lemma elem_of_rows_agg `{Countable K} {A R} (f : K → list A → R)
    (key : A → option K) (df : list A) (b : R) :
  b ∈ rows (agg f (groupBy key df)) →
  ∃ k r, b = f k (group_of key k df) ∧ r ∈ df ∧ key r = Some k.
Proof.
  intros [k Hk]%elem_of_rows. apply lookup_agg_Some in Hk as [-> Hne].
  apply nonempty_elem in Hne as [r Hr].
  apply elem_of_group_of in Hr as [Hr Hkey]. by exists k, r.
Qed.

Lemma cdr_minute_gold_tower df b :
  b ∈ cdr_stream_minute_gold df →
  ∃ r, r ∈ df ∧ CdrMinute.towerId b = Cdr.towerId r.1.
Proof.
  intros (k & r & -> & Hr & Hk)%elem_of_rows_agg. exists r. split; [done|].
  unfold cdr_minute_key in Hk. destruct (Cdr.event_ts r.1); [|done].
  by injection Hk as <-.
Qed.

Lemma pcmd_minute_gold_tower df b :
  b ∈ pcmd_stream_minute_gold df →
  ∃ r, r ∈ df ∧ PcmdMinute.towerId b = Pcmd.towerId r.1.
Proof.
  intros (k & r & -> & Hr & Hk)%elem_of_rows_agg. exists r. split; [done|].
  unfold pcmd_minute_key in Hk. destruct (Pcmd.event_ts r.1); [|done].
  by injection Hk as <-.
Qed.

Lemma cdr_rollup_tower d table b :
  b ∈ rows (cdr_rollup_buckets d table) →
  ∃ r, r ∈ table ∧ CdrRollup.towerId b = CdrMinute.towerId r.
Proof.
  intros (k & r & -> & Hr & Hk)%elem_of_rows_agg. exists r. split; [done|].
  unfold cdr_rollup_key in Hk. destruct (CdrMinute.date r); [|done].
  by injection Hk as <-.
Qed.

(** C3. An event whose tower id has no matching record in the directory
    is dropped by the join, for the CDR stream and for the PCMD stream:
    the silver table is the same with and without the event, no silver
    row carries its tower id, and no row of the minute, hour or day
    tables does (scenario C: nothing is ever emitted for T9). *)
Theorem unknown_tower_dropped :
  ∀ (towers : list Tower.row) (id : option string),
    ¬ tower_known towers id →
    (∀ b1 c b2, Cdr.towerId c = id →
       cdr_stream_silver towers (b1 ++ c :: b2) =
         cdr_stream_silver towers (b1 ++ b2)) ∧
    (∀ b1 p b2, Pcmd.towerId p = id →
       pcmd_stream_silver towers (b1 ++ p :: b2) =
         pcmd_stream_silver towers (b1 ++ b2)) ∧
    (∀ bronze,
       let silver := cdr_stream_silver towers bronze in
       let minute_gold := cdr_stream_minute_gold silver in
       (∀ r, r ∈ silver → Cdr.towerId r.1 ≠ id) ∧
       (∀ b, b ∈ minute_gold → CdrMinute.towerId b ≠ id) ∧
       (∀ b, b ∈ cdr_stream_hour_gold minute_gold → CdrRollup.towerId b ≠ id) ∧
       (∀ b, b ∈ cdr_stream_day_gold minute_gold → CdrRollup.towerId b ≠ id)) ∧
    (∀ bronze,
       let silver := pcmd_stream_silver towers bronze in
       (∀ r, r ∈ silver → Pcmd.towerId r.1 ≠ id) ∧
       (∀ b, b ∈ pcmd_stream_minute_gold silver → PcmdMinute.towerId b ≠ id)).
Proof.
  intros towers id Hun. split_and!.
  - intros b1 c b2 <-.
    change (c :: b2) with ([c] ++ b2).
    by rewrite !cdr_stream_silver_app, cdr_silver_unknown.
  - intros b1 p b2 <-.
    change (p :: b2) with ([p] ++ b2).
    by rewrite !pcmd_stream_silver_app, pcmd_silver_unknown.
  - intros bronze silver minute_gold.
    assert (∀ r, r ∈ silver → Cdr.towerId r.1 ≠ id) as Hs.
    { intros r [_ Hr]%cdr_silver_known <-. done. }
    assert (∀ b, b ∈ minute_gold → CdrMinute.towerId b ≠ id) as Hm.
    { intros b (r & Hr & ->)%cdr_minute_gold_tower. by apply Hs. }
    split_and!; [done|done|..].
    + intros b (r & Hr & ->)%cdr_rollup_tower. by apply Hm.
    + intros b (r & Hr & ->)%cdr_rollup_tower. by apply Hm.
  - intros bronze silver.
    assert (∀ r, r ∈ silver → Pcmd.towerId r.1 ≠ id) as Hs.
    { intros r [_ Hr]%pcmd_silver_known <-. done. }
    split; [done|].
    intros b (r & Hr & ->)%pcmd_minute_gold_tower. by apply Hs.
Qed.

(** One raw event that joins with exactly one tower record and passes
    the expectations gives one silver row. *)
Lemma cdr_silver_single towers c tw :
  Cdr.towerId c ≠ None → Cdr.type c ≠ None →
  tower_records towers (Cdr.towerId c) = [tw] →
  cdr_stream_silver towers [c] = [(c, tw)].
Proof.
  intros Ht Hy Hm. unfold cdr_stream_silver, join. simpl.
  unfold tower_records in Hm. rewrite Hm. simpl.
  unfold dlt.table. rewrite filter_cons, filter_nil, decide_True; [done|].
  apply not_eq_None_Some in Ht as [t Ht], Hy as [y Hy].
  unfold cdr_expectations, dlt.keeps, dlt.violates. simpl.
  by rewrite Ht, Hy.
Qed.

(** C4. A CDR event with a tower id and a type but no status is kept:
    it becomes a silver row and, in the minute bucket of its tower and
    window, the total and the counter of its type grow by one while
    dropped, answered and missed stay as they were. *)
Theorem null_status_counted :
  ∀ (towers : list Tower.row) (bronze : list Cdr.row) (c : Cdr.row)
    (tw : Tower.row) (ts : Z),
    Cdr.towerId c ≠ None → Cdr.type c ≠ None → Cdr.status c = None →
    Cdr.event_ts c = Some ts →
    tower_records towers (Cdr.towerId c) = [tw] →
    let silver := cdr_stream_silver towers bronze in
    let silver' := cdr_stream_silver towers (bronze ++ [c]) in
    let k := (F.window minute ts, Cdr.towerId c) in
    let old := cdr_minute_buckets silver !! k in
    silver' = silver ++ [(c, tw)] ∧
    ∃ b, cdr_minute_buckets silver' !! k = Some b ∧
      CdrMinute.totalRecords_CDR b =
        counter_of CdrMinute.totalRecords_CDR old + 1 ∧
      CdrMinute.call b =
        counter_of CdrMinute.call old + indicator (Cdr.type c) "call" ∧
      CdrMinute.text b =
        counter_of CdrMinute.text old + indicator (Cdr.type c) "text" ∧
      CdrMinute.dropped b = counter_of CdrMinute.dropped old ∧
      CdrMinute.answered b = counter_of CdrMinute.answered old ∧
      CdrMinute.missed b = counter_of CdrMinute.missed old.
Proof.
  intros towers bronze c tw ts Ht Hy Hst Hts Hm silver silver' k old.
  assert (silver' = silver ++ [(c, tw)]) as Hs'.
  { unfold silver', silver.
    by rewrite cdr_stream_silver_app, (cdr_silver_single towers c tw). }
  split; [done|]. rewrite Hs'.
  destruct (cdr_minute_buckets_snoc silver (c, tw) ts Hts)
    as (b & Hb & _ & _ & Hd & Ha & Hmi & Hc & Hx & Htot).
  simpl in *. rewrite Hst in Hd, Ha, Hmi. unfold indicator in Hd, Ha, Hmi.
  rewrite bool_decide_eq_false_2 in Hd, Ha, Hmi by done.
  subst old k. exists b. split_and!; try done; lia.
Qed.

(** ** Rollups *)

Lemma non_null_some {A V} (f : A → V) (g : list A) :
  F.non_null ((λ r, Some (f r)) <$> g) = f <$> g.
Proof.
  unfold F.non_null. induction g as [|r g IH]; simpl; [done|]. by f_equal.
Qed.

Lemma sum_some {A} (f : A → Z) (g : list A) :
  g ≠ [] → F.sum ((λ r, Some (f r)) <$> g) = Some (Zsum (f <$> g)).
Proof.
  intros Hne. unfold F.sum. rewrite non_null_some. by destruct g.
Qed.

(** The group of a rollup key holds the minute rows of the tower whose
    window start lies in the window of the key. *)
Lemma rollup_group_in_window d table k ts0 :
  0 < d → k.1 = F.window d ts0 →
  group_of (cdr_rollup_key d) k table = filter (in_window k.1 k.2) table.
Proof.
  intros Hd Hk. unfold group_of. apply list_filter_iff. intros r.
  unfold cdr_rollup_key, in_window. destruct k as [w tower]. simpl in *.
  subst w. destruct (CdrMinute.date r) as [ts|]; simpl.
  - split.
    + intros E.
      assert (F.window d ts = F.window d ts0) as Hw by congruence.
      assert (CdrMinute.towerId r = tower) as Ht by congruence.
      split; [done|]. exists ts. split; [done|].
      apply (window_eq_iff d ts0 ts Hd) in Hw. exact Hw.
    + intros [-> (ts' & [= <-] & Hin)]. do 2 f_equal.
      apply (window_eq_iff d ts0 ts Hd). exact Hin.
  - split; [done|]. by intros [_ (ts' & [=] & _)].
Qed.

Lemma rollup_bucket_sums d table b :
  0 < d → b ∈ rows (cdr_rollup_buckets d table) →
  rollup_of_minutes d table b.
Proof.
  intros Hd (k & r & -> & Hr & Hk)%elem_of_rows_agg.
  assert (r ∈ group_of (cdr_rollup_key d) k table) as Hin
    by by apply elem_of_group_of.
  assert (group_of (cdr_rollup_key d) k table ≠ []) as Hne.
  { intros E. rewrite E in Hin. by apply not_elem_of_nil in Hin. }
  unfold cdr_rollup_key in Hk.
  destruct (CdrMinute.date r) as [ts|]; [|done]. simpl in Hk.
  assert (k.1 = F.window d ts) as Hk1 by (by injection Hk as <-).
  unfold rollup_of_minutes. simpl.
  rewrite <- (rollup_group_in_window d table k ts Hd Hk1).
  destruct (window_floor d ts Hd) as (_ & Hw & Hm).
  rewrite Hk1. split_and!; [done|done|..]; by apply sum_some.
Qed.

(** C5. The hour table and the day table are sums of minute rows: in each
    of their rows, every counter (dropped, answered, missed, text, call,
    total) is the sum of that counter over the minute rows of the same
    tower whose window start lies in the hour, respectively the day, of
    the row; every dated minute row lies in one such row.  Four minute
    buckets of T1 with total 10 each roll up to one hour bucket with
    total 40. *)
Theorem rollup_additive :
  (∀ table b, b ∈ cdr_stream_hour_gold table → rollup_of_minutes hour table b) ∧
  (∀ table b, b ∈ cdr_stream_day_gold table → rollup_of_minutes day table b) ∧
  (∀ table r ts, r ∈ table → CdrMinute.date r = Some ts →
     (∃ b, b ∈ cdr_stream_hour_gold table ∧
           in_window (CdrRollup.window b) (CdrRollup.towerId b) r) ∧
     (∃ b, b ∈ cdr_stream_day_gold table ∧
           in_window (CdrRollup.window b) (CdrRollup.towerId b) r)) ∧
  (λ b, (CdrRollup.towerId b, CdrRollup.window b, CdrRollup.totalRecords_CDR b))
    <$> cdr_stream_hour_gold scenario_B
  = [(Some "T1", (at_ 10 0 0, at_ 11 0 0), Some 40)].
Proof.
  split_and!.
  - intros table b. apply rollup_bucket_sums, hour_pos.
  - intros table b. apply rollup_bucket_sums, day_pos.
  - intros table r ts Hr Hts.
    assert (∀ d, 0 < d → ∃ b, b ∈ rows (cdr_rollup_buckets d table) ∧
              in_window (CdrRollup.window b) (CdrRollup.towerId b) r) as Hd.
    { intros d Hd.
      set (k := (F.window d ts, CdrMinute.towerId r)).
      exists (cdr_rollup_agg k (group_of (cdr_rollup_key d) k table)).
      split.
      - apply elem_of_rows. exists k. unfold cdr_rollup_buckets.
        apply (lookup_agg_elem _ _ _ _ r); [done|].
        unfold cdr_rollup_key. by rewrite Hts.
      - simpl. split; [done|]. exists ts. split; [done|].
        destruct (window_floor d ts Hd) as (? & ? & _). lia. }
    split; [apply Hd, hour_pos | apply Hd, day_pos].
  - by vm_compute.
Qed.

Lemma sum_pair_assoc (x y z : option Z) :
  F.sum [F.sum [x; y]; z] = F.sum [x; F.sum [y; z]].
Proof.
  destruct x, y, z; unfold F.sum, F.non_null; simpl; try done; f_equal; lia.
Qed.

(** C6. Combining is associative: on every counter of the rollup, which
    are all sums, combining the combination of [a] and [b] with [c] gives
    what combining [a] with the combination of [b] and [c] gives. *)
Theorem combine_associative :
  ∀ a b c : CdrCounts.row,
    combine [combine [a; b]; c] = combine [a; combine [b; c]].
Proof.
  intros a b c. unfold combine, counters, counts_counters. simpl.
  f_equal; apply sum_pair_assoc.
Qed.

(** ** PCMD durations *)

Lemma Qmax_cases (x y : Q) : Qmax x y = x ∨ Qmax x y = y.
Proof.
  unfold Qmax, GenericMinMax.gmax. destruct (x ?= y)%Q; auto.
Qed.

Lemma Qmin_cases (x y : Q) : Qmin x y = x ∨ Qmin x y = y.
Proof.
  unfold Qmin, GenericMinMax.gmin. destruct (x ?= y)%Q; auto.
Qed.

Lemma foldr_Qmax_elem (v : Q) (vs : list Q) : foldr Qmax v vs ∈ v :: vs.
Proof.
  induction vs as [|x vs IH]; simpl; [apply list_elem_of_here|].
  destruct (Qmax_cases x (foldr Qmax v vs)) as [-> | ->].
  - rewrite !elem_of_cons. auto.
  - apply elem_of_cons in IH as [IH|IH]; rewrite !elem_of_cons; auto.
Qed.

Lemma foldr_Qmin_elem (v : Q) (vs : list Q) : foldr Qmin v vs ∈ v :: vs.
Proof.
  induction vs as [|x vs IH]; simpl; [apply list_elem_of_here|].
  destruct (Qmin_cases x (foldr Qmin v vs)) as [-> | ->].
  - rewrite !elem_of_cons. auto.
  - apply elem_of_cons in IH as [IH|IH]; rewrite !elem_of_cons; auto.
Qed.

Lemma foldr_Qmax_ge (v : Q) (vs : list Q) (x : Q) :
  x ∈ v :: vs → (x <= foldr Qmax v vs)%Q.
Proof.
  induction vs as [|y vs IH]; simpl.
  - intros ->%list_elem_of_singleton. apply Qle_refl.
  - intros [-> | [-> | Hx]%elem_of_cons]%elem_of_cons.
    + eapply Qle_trans; [apply IH; set_solver|apply Q.le_max_r].
    + apply Q.le_max_l.
    + eapply Qle_trans; [apply IH; set_solver|apply Q.le_max_r].
Qed.

Lemma foldr_Qmin_le (v : Q) (vs : list Q) (x : Q) :
  x ∈ v :: vs → (foldr Qmin v vs <= x)%Q.
Proof.
  induction vs as [|y vs IH]; simpl.
  - intros ->%list_elem_of_singleton. apply Qle_refl.
  - intros [-> | [-> | Hx]%elem_of_cons]%elem_of_cons.
    + eapply Qle_trans; [apply Q.le_min_r|apply IH; set_solver].
    + apply Q.le_min_l.
    + eapply Qle_trans; [apply Q.le_min_r|apply IH; set_solver].
Qed.

(** [F.avg], [F.max] and [F.min] read the non-null values only. *)
Lemma avg_non_null col :
  F.avg col = match F.non_null col with [] => None | ds => Some (mean ds) end.
Proof. unfold F.avg, mean. by destruct (F.non_null col). Qed.

Lemma max_non_null col :
  match F.max col with
  | None => F.non_null col = []
  | Some M => M ∈ F.non_null col ∧ ∀ x, x ∈ F.non_null col → (x <= M)%Q
  end.
Proof.
  unfold F.max. destruct (F.non_null col) as [|v vs]; [done|].
  split; [apply foldr_Qmax_elem|apply foldr_Qmax_ge].
Qed.

Lemma min_non_null col :
  match F.min col with
  | None => F.non_null col = []
  | Some m => m ∈ F.non_null col ∧ ∀ x, x ∈ F.non_null col → (m <= x)%Q
  end.
Proof.
  unfold F.min. destruct (F.non_null col) as [|v vs]; [done|].
  split; [apply foldr_Qmin_elem|apply foldr_Qmin_le].
Qed.

(** The three columns of a tracked procedure id. *)
Lemma tracked_columns id k g :
  id ∈ tracked →
  avg_dur id (pcmd_minute_agg k g) = F.avg (dur_when id g) ∧
  max_dur id (pcmd_minute_agg k g) = F.max (dur_when id g) ∧
  min_dur id (pcmd_minute_agg k g) = F.min (dur_when id g).
Proof.
  unfold tracked.
  intros [-> | [-> | ->%list_elem_of_singleton]%elem_of_cons]%elem_of_cons;
    done.
Qed.

(** The aggregates of one procedure id over a bucket. *)
Lemma pcmd_bucket_durations df k b id :
  pcmd_minute_buckets df !! k = Some b → id ∈ tracked →
  let ds := durations_of id (group_of pcmd_minute_key k df) in
  avg_dur id b = match ds with [] => None | _ => Some (mean ds) end ∧
  match max_dur id b with
  | None => ds = []
  | Some M => M ∈ ds ∧ ∀ x, x ∈ ds → (x <= M)%Q
  end ∧
  match min_dur id b with
  | None => ds = []
  | Some m => m ∈ ds ∧ ∀ x, x ∈ ds → (m <= x)%Q
  end.
Proof.
  intros Hb Hid ds. unfold pcmd_minute_buckets in Hb.
  apply lookup_agg_Some in Hb as [-> _].
  destruct (tracked_columns id k (group_of pcmd_minute_key k df) Hid)
    as (-> & -> & ->).
  subst ds. unfold durations_of. split_and!.
  - rewrite avg_non_null. by destruct (F.non_null _).
  - apply max_non_null.
  - apply min_non_null.
Qed.

(** What [F.when] selects for a procedure id: the duration of a row
    whose ProcedureId is that id, nothing for the other rows. *)
Lemma when_procedure id (r : Pcmd.row * Tower.row) :
  F.when (F.eq_lit (Pcmd.ProcedureId r.1) id) (Pcmd.ProcedureDuration r.1) =
    if decide (Pcmd.ProcedureId r.1 = Some id)
    then Pcmd.ProcedureDuration r.1 else None.
Proof.
  unfold F.when, F.eq_lit. destruct (Pcmd.ProcedureId r.1) as [p|]; simpl.
  - case_bool_decide as Hp; case_decide as Hd; congruence.
  - done.
Qed.

Lemma omap_cons_app {A B} (f : A → option B) (x : A) (l : list A) :
  omap f (x :: l) = from_option (λ y, [y]) [] (f x) ++ omap f l.
Proof. simpl. by destruct (f x). Qed.

(** The values the aggregation of a procedure reads are the durations of
    the rows with that ProcedureId, and of no other row. *)
Lemma durations_of_procedure id g :
  durations_of id g = procedure_durations id g.
Proof.
  unfold durations_of, procedure_durations, F.non_null, dur_when.
  induction g as [|r g IH]; [done|].
  rewrite fmap_cons, filter_cons, omap_cons_app, IH, when_procedure.
  destruct (decide (Pcmd.ProcedureId r.1 = Some id)) as [Hd|Hd]; [|done].
  by rewrite omap_cons_app.
Qed.

(** The aggregates of one procedure id over a bucket, in terms of the
    rows of the bucket whose ProcedureId is that id. *)
Lemma pcmd_bucket_procedure_durations df k b id :
  pcmd_minute_buckets df !! k = Some b → id ∈ tracked →
  let ds := procedure_durations id (group_of pcmd_minute_key k df) in
  avg_dur id b = match ds with [] => None | _ => Some (mean ds) end ∧
  match max_dur id b with
  | None => ds = []
  | Some M => M ∈ ds ∧ ∀ x, x ∈ ds → (x <= M)%Q
  end ∧
  match min_dur id b with
  | None => ds = []
  | Some m => m ∈ ds ∧ ∀ x, x ∈ ds → (m <= x)%Q
  end.
Proof.
  intros Hb Hid. cbn zeta. rewrite <- durations_of_procedure.
  by apply pcmd_bucket_durations.
Qed.

(** C7, as the code has it.  The PCMD aggregates exist by minute only:
    no dataset reads the PCMD minute table, and the hour and day tables
    read the CDR minute table.  In a minute bucket, the average of a
    tracked procedure is the sum of the durations of the bucket's events
    whose ProcedureId is that procedure, and of no other event, divided
    once by their number (as exact numbers), and the maximum and minimum
    are the greatest and the least of these durations. *)
Theorem pcmd_minute_only :
  Graph.consumers Graph.pcmd_stream_minute_gold = [] ∧
  Graph.reads Graph.cdr_stream_hour_gold = [Graph.cdr_stream_minute_gold] ∧
  Graph.reads Graph.cdr_stream_day_gold = [Graph.cdr_stream_minute_gold] ∧
  ∀ df k b id,
    pcmd_minute_buckets df !! k = Some b → id ∈ tracked →
    let ds := procedure_durations id (group_of pcmd_minute_key k df) in
    avg_dur id b = match ds with [] => None | _ => Some (mean ds) end ∧
    match max_dur id b with
    | None => ds = []
    | Some M => M ∈ ds ∧ ∀ x, x ∈ ds → (x <= M)%Q
    end ∧
    match min_dur id b with
    | None => ds = []
    | Some m => m ∈ ds ∧ ∀ x, x ∈ ds → (m <= x)%Q
    end.
Proof.
  split_and!; [done|done|done|]. apply pcmd_bucket_procedure_durations.
Qed.

(** C7, as stated, fails: no dataset of the pipeline reads the PCMD
    minute table, so nothing rolls it up to the hour or to the day. *)
Lemma pcmd_rollup_absent : ¬ pcmd_rolled_up.
Proof.
  intros [d Hd].
  destruct d; simpl in Hd;
    repeat (apply elem_of_cons in Hd as [Hd|Hd]; [discriminate|]);
    by apply not_elem_of_nil in Hd.
Qed.

Lemma durations_of_elem id g r d :
  r ∈ g → Pcmd.ProcedureId r.1 = Some id →
  Pcmd.ProcedureDuration r.1 = Some d → d ∈ durations_of id g.
Proof.
  intros Hr Hid Hd. unfold durations_of, F.non_null, dur_when.
  apply list_elem_of_omap. eexists. split.
  - apply list_elem_of_fmap. exists r. split; [reflexivity|done].
  - rewrite Hid, Hd. unfold F.when, F.eq_lit. simpl.
    by rewrite bool_decide_eq_true_2.
Qed.

(** C9. A retained PCMD event of a tracked procedure has its duration in
    the average, the maximum and the minimum of its minute bucket,
    whatever the sign of the duration: the duration is one of the values
    averaged, the minimum is at most the duration and the maximum at
    least.  With the events of procedure 11 of durations 7 and -5, the
    second one is kept and flagged, the minimum is -5 and the average is
    (7 - 5) / 2. *)
Theorem flagged_duration_aggregated :
  (∀ (df : list (Pcmd.row * Tower.row)) (r : Pcmd.row * Tower.row)
     (id : string) (d : Q) (ts : Z),
     r ∈ df → Pcmd.event_ts r.1 = Some ts →
     Pcmd.ProcedureId r.1 = Some id → id ∈ tracked →
     Pcmd.ProcedureDuration r.1 = Some d →
     let k := (F.window minute ts, Pcmd.towerId r.1) in
     let ds := durations_of id (group_of pcmd_minute_key k df) in
     ∃ b, pcmd_minute_buckets df !! k = Some b ∧
       d ∈ ds ∧
       avg_dur id b = Some (mean ds) ∧
       (∃ m, min_dur id b = Some m ∧ (m <= d)%Q) ∧
       (∃ M, max_dur id b = Some M ∧ (d <= M)%Q)) ∧
  (let silver := pcmd_stream_silver [tower_T1] pcmd_sample in
   silver = (λ p, (p, tower_T1)) <$> pcmd_sample ∧
   dlt.flags pcmd_expectations (pcmd_negative, tower_T1) = ["ProcedureDuration"] ∧
   (λ b, (PcmdMinute.min_dur_request_to_release_bearer b,
          PcmdMinute.max_dur_request_to_release_bearer b,
          PcmdMinute.avg_dur_request_to_release_bearer b,
          PcmdMinute.totalRecords_PCMD b))
     <$> pcmd_stream_minute_gold silver
   = [(Some (-5)%Q, Some 7%Q, Some ((7 + (-5) + 0) / 2)%Q, 3)]).
Proof.
  split; [|by vm_compute].
  intros df r id d ts Hr Hts Hid Htr Hd k ds.
  assert (pcmd_minute_key r = Some k) as Hk.
  { unfold pcmd_minute_key. by rewrite Hts. }
  assert (d ∈ ds) as Hin.
  { apply (durations_of_elem id _ r); [|done|done].
    by apply elem_of_group_of. }
  pose proof (pcmd_bucket_of_elem df r k Hr Hk) as Hb.
  destruct (pcmd_bucket_durations df k _ id Hb Htr) as (Havg & Hmax & Hmin).
  fold ds in Havg, Hmax, Hmin.
  eexists. split; [exact Hb|]. split; [done|]. split_and!.
  - rewrite Havg. destruct ds; [by apply not_elem_of_nil in Hin|done].
  - destruct (min_dur id _) as [m|].
    + exists m. split; [done|]. by apply Hmin.
    + rewrite Hmin in Hin. by apply not_elem_of_nil in Hin.
  - destruct (max_dur id _) as [M|].
    + exists M. split; [done|]. by apply Hmax.
    + rewrite Hmax in Hin. by apply not_elem_of_nil in Hin.
Qed.

(** ** Untracked procedures *)

Lemma untracked_when id (e : Pcmd.row * Tower.row) :
  id ∈ tracked → ¬ is_tracked (Pcmd.ProcedureId e.1) →
  F.when (F.eq_lit (Pcmd.ProcedureId e.1) id) (Pcmd.ProcedureDuration e.1)
  = None.
Proof.
  intros Hid Hun. unfold F.when, F.eq_lit.
  destruct (Pcmd.ProcedureId e.1) as [p|]; simpl; [|done].
  case_bool_decide as Hp; [|done].
  exfalso. apply Hun. exists id. by rewrite Hp.
Qed.

Lemma durations_of_app id g1 g2 :
  durations_of id (g1 ++ g2) = durations_of id g1 ++ durations_of id g2.
Proof.
  unfold durations_of, F.non_null, dur_when. by rewrite fmap_app, omap_app.
Qed.

Lemma durations_of_untracked id g :
  id ∈ tracked → (∀ r, r ∈ g → ¬ is_tracked (Pcmd.ProcedureId r.1)) →
  durations_of id g = [].
Proof.
  intros Hid. induction g as [|e g IH]; intros Hun; [done|].
  change (e :: g) with ([e] ++ g). rewrite durations_of_app, IH.
  - unfold durations_of, F.non_null, dur_when. simpl.
    rewrite untracked_when; [done|done|]. apply Hun, list_elem_of_here.
  - intros r Hr. by apply Hun, list_elem_of_further.
Qed.

(** The nine duration columns depend on the durations of the three
    tracked procedures only. *)
Lemma agg_durations_ext k k' g g' :
  (∀ id, id ∈ tracked → durations_of id g = durations_of id g') →
  durations (pcmd_minute_agg k g) = durations (pcmd_minute_agg k' g').
Proof.
  intros Hext. unfold durations, pcmd_minute_agg. simpl.
  unfold F.avg, F.max, F.min. unfold durations_of in Hext.
  rewrite (Hext "11"), (Hext "15"), (Hext "16"); [done|..];
    unfold tracked; rewrite !elem_of_cons; auto.
Qed.

Lemma pcmd_total_of_bucket df k :
  counter_of PcmdMinute.totalRecords_PCMD (pcmd_minute_buckets df !! k) =
    Z.of_nat (length (group_of pcmd_minute_key k df)).
Proof.
  unfold pcmd_minute_buckets. rewrite lookup_agg, lookup_groupBy.
  destruct (group_of pcmd_minute_key k df) as [|r g]; [done|].
  exact (pcmd_total_records k (r :: g)).
Qed.

(** C10. A retained PCMD event whose procedure id is none of 11, 15 and
    16 adds one to the total of its minute bucket and leaves the nine
    average, maximum and minimum columns of the bucket, and every other
    bucket, as they were; a bucket of such events only has its nine
    duration columns null and its total equal to the number of its
    events. *)
Theorem untracked_procedure_counted :
  (∀ (df : list (Pcmd.row * Tower.row)) (e : Pcmd.row * Tower.row) (ts : Z),
     Pcmd.event_ts e.1 = Some ts →
     ¬ is_tracked (Pcmd.ProcedureId e.1) →
     let k := (F.window minute ts, Pcmd.towerId e.1) in
     let old := pcmd_minute_buckets df !! k in
     (∃ b, pcmd_minute_buckets (df ++ [e]) !! k = Some b ∧
        PcmdMinute.totalRecords_PCMD b =
          counter_of PcmdMinute.totalRecords_PCMD old + 1 ∧
        durations b = from_option durations (replicate 9 None) old) ∧
     (∀ k', k' ≠ k →
        pcmd_minute_buckets (df ++ [e]) !! k' = pcmd_minute_buckets df !! k')) ∧
  (∀ (df : list (Pcmd.row * Tower.row)) (k : Key) (b : PcmdMinute.row),
     pcmd_minute_buckets df !! k = Some b →
     (∀ r, r ∈ group_of pcmd_minute_key k df →
           ¬ is_tracked (Pcmd.ProcedureId r.1)) →
     durations b = replicate 9 None ∧
     PcmdMinute.totalRecords_PCMD b =
       Z.of_nat (length (group_of pcmd_minute_key k df))).
Proof.
  split.
  - intros df e ts Hts Hun k old.
    assert (pcmd_minute_key e = Some k) as Hk.
    { unfold pcmd_minute_key. by rewrite Hts. }
    split.
    + eexists. split.
      { unfold pcmd_minute_buckets. by apply lookup_agg_snoc_eq. }
      subst old. split.
      * rewrite pcmd_total_records, pcmd_total_of_bucket, length_app.
        simpl. lia.
      * unfold pcmd_minute_buckets. rewrite lookup_agg, lookup_groupBy.
        transitivity
          (durations (pcmd_minute_agg k (group_of pcmd_minute_key k df))).
        { apply agg_durations_ext. intros id Hid.
          rewrite durations_of_app.
          rewrite (durations_of_untracked id [e]), app_nil_r; [done|done|].
          by intros r ->%list_elem_of_singleton. }
        by destruct (group_of pcmd_minute_key k df).
    + intros k' Hne. unfold pcmd_minute_buckets. apply lookup_agg_snoc_ne.
      rewrite Hk. intros [= E]. by apply Hne.
  - intros df k b Hb Hun. unfold pcmd_minute_buckets in Hb.
    apply lookup_agg_Some in Hb as [-> _]. split.
    + transitivity (durations (pcmd_minute_agg k [])); [|done].
      apply agg_durations_ext. intros id Hid.
      by rewrite durations_of_untracked.
    + apply pcmd_total_records.
Qed.

(** ** Arrival order *)

#[export] Instance Zsum_Permutation : Proper ((≡ₚ) ==> (=)) Zsum.
Proof.
  intros l l' Hp. unfold Zsum.
  induction Hp; simpl; [done|congruence|lia|congruence].
Qed.

Lemma Zsum_cons x l : Zsum (x :: l) = x + Zsum l.
Proof. done. Qed.

(** Adding a row under a key replaces what the key held. *)
Lemma rows_insert_sum `{Countable K} {R} (h : R → Z) (m : gmap K R) k v :
  Zsum (h <$> rows (<[k:=v]> m)) =
    h v + Zsum (h <$> rows m) - counter_of h (m !! k).
Proof.
  unfold rows, counter_of. destruct (m !! k) as [x|] eqn:E; simpl.
  - rewrite <- insert_delete_eq.
    rewrite map_to_list_insert by apply lookup_delete_eq.
    rewrite <- (map_to_list_delete m k x E).
    rewrite !fmap_cons, !Zsum_cons. cbn [snd]. lia.
  - rewrite map_to_list_insert by done.
    rewrite !fmap_cons, !Zsum_cons. cbn [snd]. lia.
Qed.

Lemma agg_groupBy_cons `{Countable K} {A R} (f : K → list A → R)
    (key : A → option K) r df k :
  key r = Some k →
  agg f (groupBy key (r :: df)) =
    <[k := f k (r :: group_of key k df)]> (agg f (groupBy key df)).
Proof.
  intros Hk. apply map_eq. intros k'.
  rewrite lookup_agg, lookup_groupBy, group_of_cons.
  destruct (decide (k = k')) as [<-|Hne].
  - by rewrite lookup_insert_eq, decide_True.
  - rewrite lookup_insert_ne, decide_False by congruence.
    by rewrite lookup_agg, lookup_groupBy.
Qed.

Lemma agg_groupBy_skip `{Countable K} {A R} (f : K → list A → R)
    (key : A → option K) r df :
  key r = None → agg f (groupBy key (r :: df)) = agg f (groupBy key df).
Proof. intros Hk. simpl. by rewrite Hk. Qed.

Lemma cdr_total_records k g :
  CdrMinute.totalRecords_CDR (cdr_minute_agg k g) = Z.of_nat (length g).
Proof. unfold cdr_minute_agg. simpl. apply count_lit. Qed.

(** The totals of the minute buckets add up to the number of events that
    carry an event time. *)
Lemma cdr_total_sum df :
  Zsum (CdrMinute.totalRecords_CDR <$> cdr_stream_minute_gold df) =
    Z.of_nat (length (filter (λ r, is_Some (Cdr.event_ts r.1)) df)).
Proof.
  unfold cdr_stream_minute_gold, cdr_minute_buckets.
  induction df as [|r df IH]; [done|].
  rewrite filter_cons. destruct (cdr_minute_key r) as [k|] eqn:Hk.
  - rewrite (agg_groupBy_cons _ _ _ _ k Hk), rows_insert_sum, IH.
    fold (cdr_minute_buckets df).
    rewrite cdr_counter_of_bucket, !cdr_total_records by done.
    unfold cdr_minute_key in Hk.
    destruct (Cdr.event_ts r.1) as [ts|]; [|done].
    rewrite decide_True by done. simpl. lia.
  - rewrite (agg_groupBy_skip _ _ _ _ Hk), IH.
    unfold cdr_minute_key in Hk.
    destruct (Cdr.event_ts r.1) as [ts|]; [done|].
    rewrite decide_False; [done|]. by intros [? ?].
Qed.

Lemma count_Permutation {V} (c c' : list (option V)) :
  c ≡ₚ c' → F.count c = F.count c'.
Proof. intros Hp. unfold F.count, F.non_null. by rewrite Hp. Qed.

Lemma cdr_agg_counters_Permutation k g g' :
  g ≡ₚ g' → counters (cdr_minute_agg k g) = counters (cdr_minute_agg k g').
Proof.
  intros Hg. unfold counters, minute_counters, cdr_minute_agg. simpl.
  f_equal; f_equal; apply count_Permutation; by rewrite Hg.
Qed.

(** The counters of a bucket do not depend on the order of arrival. *)
Lemma cdr_counters_Permutation df df' k :
  df ≡ₚ df' →
  counters <$> cdr_minute_buckets df !! k =
    counters <$> cdr_minute_buckets df' !! k.
Proof.
  intros Hp. unfold cdr_minute_buckets.
  rewrite !lookup_agg, !lookup_groupBy.
  assert (group_of cdr_minute_key k df ≡ₚ group_of cdr_minute_key k df') as Hg.
  { unfold group_of. by rewrite Hp. }
  destruct (group_of cdr_minute_key k df) as [|r g] eqn:E.
  { apply Permutation_nil_l in Hg. by rewrite <- Hg. }
  destruct (group_of cdr_minute_key k df') as [|r' g'] eqn:E'.
  { by apply Permutation_nil_r in Hg. }
  exact (f_equal Some (cdr_agg_counters_Permutation k _ _ Hg)).
Qed.

(** C8, as the code has it.  The minute aggregation applies no watermark
    and no allowed lateness: an event that carries an event time adds one
    to the total of the bucket of its tower and minute, and changes no
    other bucket, whatever has been seen before it; the counters of every
    bucket are the same for every order of arrival; and the totals of all
    the buckets add up to the number of events that carry an event time,
    so that none is dropped for lateness. *)
Theorem no_watermark :
  (∀ (df : list (Cdr.row * Tower.row)) (e : Cdr.row * Tower.row) (ts : Z),
     Cdr.event_ts e.1 = Some ts →
     let k := (F.window minute ts, Cdr.towerId e.1) in
     (∃ b, cdr_minute_buckets (df ++ [e]) !! k = Some b ∧
        CdrMinute.totalRecords_CDR b =
          counter_of CdrMinute.totalRecords_CDR (cdr_minute_buckets df !! k) + 1) ∧
     (∀ k', k' ≠ k →
        cdr_minute_buckets (df ++ [e]) !! k' = cdr_minute_buckets df !! k')) ∧
  (∀ (df df' : list (Cdr.row * Tower.row)) (k : Key),
     df ≡ₚ df' →
     counters <$> cdr_minute_buckets df !! k =
       counters <$> cdr_minute_buckets df' !! k) ∧
  (∀ df : list (Cdr.row * Tower.row),
     Zsum (CdrMinute.totalRecords_CDR <$> cdr_stream_minute_gold df) =
       Z.of_nat (length (filter (λ r, is_Some (Cdr.event_ts r.1)) df))).
Proof.
  split_and!.
  - intros df e ts Hts k. split.
    + destruct (cdr_minute_buckets_snoc df e ts Hts)
        as (b & Hb & _ & _ & _ & _ & _ & _ & _ & Htot).
      by exists b.
    + intros k' Hne. apply cdr_minute_buckets_snoc_ne.
      unfold cdr_minute_key. rewrite Hts. simpl.
      intros [= E]. apply Hne. by rewrite <- E.
  - intros df df' k Hp. by apply cdr_counters_Permutation.
  - apply cdr_total_sum.
Qed.

(** C8, as stated, fails.  With an allowed lateness of one minute, the
    window of 10:00 is sealed once an event of 10:10:00 has been seen;
    the event of 10:00:15 that arrives next is still counted, in the
    bucket of 10:00. *)
Lemma late_event_counted :
  sealed minute straggler_seen (F.window minute (at_ 10 0 15)) ∧
  CdrMinute.totalRecords_CDR <$>
    cdr_minute_buckets straggler_seen
      !! (F.window minute (at_ 10 0 15), Some "T1") = None ∧
  CdrMinute.totalRecords_CDR <$>
    cdr_minute_buckets (straggler_seen ++ [straggler])
      !! (F.window minute (at_ 10 0 15), Some "T1") = Some 1 ∧
  ¬ drops_late_events minute.
Proof.
  assert (sealed minute straggler_seen (F.window minute (at_ 10 0 15))) as Hs.
  { exists (cdr "T1" "call" "answered" (at_ 10 10 0), tower_T1), (at_ 10 10 0).
    split_and!; [apply list_elem_of_here|done|by vm_compute]. }
  split_and!; [done|by vm_compute|by vm_compute|].
  intros Hdrop.
  pose proof (Hdrop straggler_seen straggler (at_ 10 0 15) eq_refl Hs) as E.
  apply (f_equal (λ m, CdrMinute.totalRecords_CDR <$>
                         m !! (F.window minute (at_ 10 0 15), Some "T1"))) in E.
  by vm_compute in E.
Qed.

(** * Instances on the scenarios *)

(** The dropped call of 10:00:15, arriving after the call of 10:10:00,
    opens the bucket of 10:00 with one dropped call. *)
Lemma cdr_minute_bucket_assignment_witness :
  Cdr.event_ts straggler.1 = Some (at_ 10 0 15) ∧
  ∃ b, cdr_minute_buckets (straggler_seen ++ [straggler])
         !! (F.window minute (at_ 10 0 15), Some "T1") = Some b ∧
       CdrMinute.date b = Some (at_ 10 0 0) ∧
       CdrMinute.dropped b = 1 ∧
       CdrMinute.answered b = 0 ∧
       CdrMinute.totalRecords_CDR b = 1.
Proof.
  split; [reflexivity|].
  destruct (proj1 cdr_minute_bucket_assignment
              straggler_seen straggler (at_ 10 0 15) eq_refl)
    as (_ & (b & Hb & Hdate & _ & Hd & Ha & _ & _ & _ & Ht) & _).
  exists b. split; [exact Hb|].
  rewrite Hdate, Hd, Ha, Ht. repeat split; reflexivity.
Defined.


(** Scenario C: T9 is not in the directory, the event changes nothing. *)
Lemma unknown_tower_dropped_witness :
  ¬ tower_known [tower_T1] (Some "T9") ∧
  cdr_stream_silver [tower_T1] (scenario_A ++ scenario_C :: []) =
    cdr_stream_silver [tower_T1] (scenario_A ++ []) ∧
  ∀ b, b ∈ cdr_stream_minute_gold
             (cdr_stream_silver [tower_T1] (scenario_C :: scenario_A)) →
       CdrMinute.towerId b ≠ Some "T9".
Proof.
  assert (¬ tower_known [tower_T1] (Some "T9")) as Hun.
  { intros H. inversion H as [? ? Hc|? ? Hc]; [|inversion Hc].
    vm_compute in Hc. discriminate Hc. }
  split; [exact Hun|].
  destruct (unknown_tower_dropped [tower_T1] (Some "T9") Hun)
    as (Hs & _ & Hg & _).
  split.
  - apply Hs. reflexivity.
  - apply (Hg (scenario_C :: scenario_A)).
Defined.

(** The text message without status is the third record of the bucket of
    10:00 and its first text; the status counters stay at one, one and
    zero. *)
Lemma null_status_counted_witness :
  tower_records [tower_T1] (Cdr.towerId cdr_no_status) = [tower_T1] ∧
  ∃ b, cdr_minute_buckets (cdr_stream_silver [tower_T1] (scenario_A ++ [cdr_no_status]))
         !! (F.window minute (at_ 10 0 50), Some "T1") = Some b ∧
       CdrMinute.totalRecords_CDR b = 3 ∧
       CdrMinute.text b = 1 ∧
       CdrMinute.dropped b = 1 ∧
       CdrMinute.answered b = 1 ∧
       CdrMinute.missed b = 0.
Proof.
  split; [reflexivity|].
  destruct (null_status_counted [tower_T1] scenario_A cdr_no_status tower_T1
              (at_ 10 0 50))
    as (_ & b & Hb & Ht & _ & Hx & Hd & Ha & Hm);
    [discriminate|discriminate|reflexivity|reflexivity|reflexivity|].
  exists b. split; [exact Hb|].
  rewrite Ht, Hx, Hd, Ha, Hm. repeat split; reflexivity.
Defined.

(** Scenario B: the hour row of T1 sums the four minute rows. *)
Lemma rollup_additive_witness :
  scenario_B_hour ∈ cdr_stream_hour_gold scenario_B ∧
  rollup_of_minutes hour scenario_B scenario_B_hour.
Proof.
  assert (scenario_B_hour ∈ cdr_stream_hour_gold scenario_B) as Hin.
  { assert (cdr_stream_hour_gold scenario_B = [scenario_B_hour]) as ->
      by (vm_compute; reflexivity).
    apply list_elem_of_here. }
  split; [exact Hin|].
  exact (proj1 rollup_additive scenario_B scenario_B_hour Hin).
Defined.

(** The average of procedure 11 over the sample is that of 7 and -5. *)
Lemma pcmd_minute_only_witness :
  ∃ b, pcmd_minute_buckets (pcmd_stream_silver [tower_T1] pcmd_sample)
         !! (F.window minute (at_ 10 0 5), Some "T1") = Some b ∧
       avg_dur "11" b = Some (mean [7; -5]%Q).
Proof.
  set (df := pcmd_stream_silver [tower_T1] pcmd_sample).
  set (k := (F.window minute (at_ 10 0 5), Some "T1")).
  assert (is_Some (pcmd_minute_buckets df !! k)) as [b Hb]
    by (vm_compute; eauto).
  exists b. split; [exact Hb|].
  destruct pcmd_minute_only as (_ & _ & _ & H).
  destruct (H df k b "11" Hb) as (Havg & _); [apply list_elem_of_here|].
  rewrite Havg. vm_compute. reflexivity.
Defined.

(** The straggler is counted although its window would be sealed. *)
Lemma no_watermark_witness :
  Cdr.event_ts straggler.1 = Some (at_ 10 0 15) ∧
  ∃ b, cdr_minute_buckets (straggler_seen ++ [straggler])
         !! (F.window minute (at_ 10 0 15), Some "T1") = Some b ∧
       CdrMinute.totalRecords_CDR b = 1.
Proof.
  split; [reflexivity|].
  destruct (proj1 no_watermark straggler_seen straggler (at_ 10 0 15) eq_refl)
    as ((b & Hb & Ht) & _).
  exists b. split; [exact Hb|]. rewrite Ht. reflexivity.
Defined.

(** The event of duration -5 bounds the minimum of procedure 11. *)
Lemma flagged_duration_aggregated_witness :
  ∃ b m, pcmd_minute_buckets (pcmd_stream_silver [tower_T1] pcmd_sample)
           !! (F.window minute (at_ 10 0 20), Some "T1") = Some b ∧
         min_dur "11" b = Some m ∧ (m <= -5)%Q.
Proof.
  destruct (proj1 flagged_duration_aggregated
              (pcmd_stream_silver [tower_T1] pcmd_sample)
              (pcmd_negative, tower_T1) "11" (-5)%Q (at_ 10 0 20))
    as (b & Hb & _ & _ & (m & Hm & Hle) & _).
  - assert (pcmd_stream_silver [tower_T1] pcmd_sample =
              (λ p, (p, tower_T1)) <$> pcmd_sample) as ->
      by (vm_compute; reflexivity).
    apply list_elem_of_further, list_elem_of_here.
  - reflexivity.
  - reflexivity.
  - apply list_elem_of_here.
  - reflexivity.
  - exists b, m. split; [exact Hb|]. split; [exact Hm|exact Hle].
Defined.

(** An event of procedure 42 adds one to the total of the sample bucket
    and leaves its nine duration columns as they were. *)
Lemma untracked_procedure_counted_witness :
  ¬ is_tracked (Pcmd.ProcedureId pcmd_untracked) ∧
  ∃ b, pcmd_minute_buckets
         (pcmd_stream_silver [tower_T1] pcmd_sample ++ [(pcmd_untracked, tower_T1)])
         !! (F.window minute (at_ 10 0 40), Some "T1") = Some b ∧
       PcmdMinute.totalRecords_PCMD b = 4 ∧
       PcmdMinute.min_dur_request_to_release_bearer b = Some (-5)%Q.
Proof.
  assert (¬ is_tracked (Pcmd.ProcedureId pcmd_untracked)) as Hun.
  { intros (s & [= <-] & Hs). apply list_elem_of_In in Hs.
    simpl in Hs. intuition discriminate. }
  split; [exact Hun|].
  destruct (proj1 untracked_procedure_counted
              (pcmd_stream_silver [tower_T1] pcmd_sample)
              (pcmd_untracked, tower_T1) (at_ 10 0 40) eq_refl Hun)
    as ((b & Hb & Ht & Hd) & _).
  exists b. split; [exact Hb|]. split.
  - rewrite Ht. reflexivity.
  - apply (f_equal (λ l, l !! 6%nat)) in Hd.
    vm_compute in Hd. injection Hd as Hd. exact Hd.
Defined.

(** * Further properties *)

(** ** The tower directory and the silver tables *)

Lemma holds_col_eq (a b : option string) :
  F.holds (col_eq a b) = true ↔ ∃ s, a = Some s ∧ b = Some s.
Proof.
  unfold col_eq, F.holds. destruct a as [x|], b as [y|]; simpl.
  - case_bool_decide as E.
    + subst. split; [eauto|done].
    + split; [done|]. intros (s & [= ->] & [= ->]). done.
  - split; [done|]. by intros (s & _ & [=]).
  - split; [done|]. by intros (s & [=] & _).
  - split; [done|]. by intros (s & [=] & _).
Qed.

Lemma col_eq_true (a b : option string) :
  col_eq a b = Some true ↔ ∃ s, a = Some s ∧ b = Some s.
Proof.
  rewrite <- holds_col_eq. unfold F.holds.
  destruct (col_eq a b) as [[]|]; split; done.
Qed.

Lemma elem_of_tower_records towers id t :
  t ∈ tower_records towers id ↔
    t ∈ towers ∧ ∃ s, id = Some s ∧ Tower.GlobalID t = Some s.
Proof.
  unfold tower_records. rewrite list_elem_of_filter, holds_col_eq. tauto.
Qed.

Lemma tower_records_None towers : tower_records towers None = [].
Proof.
  unfold tower_records. apply filter_none. intros t _.
  rewrite holds_col_eq. by intros (s & [=] & _).
Qed.

Lemma elem_of_static_tower_data fs t :
  t ∈ static_tower_data fs ↔ ∃ f, f ∈ fs ∧ tower_of f t.
Proof.
  unfold static_tower_data. rewrite list_elem_of_fmap. split.
  - intros (f & -> & Hf). exists f. by split.
  - intros (f & Hf & H1 & H2 & H3 & H4 & H5 & H6). exists f. split; [|done].
    destruct t. simpl in *. by subst.
Qed.

(** X1. The silver rows in terms of the GeoJSON file: an event is paired
    with the row selected from a feature exactly when the event is in the
    stream, has a type, and its tower id is the GlobalID of the feature;
    the row carries the city, county and state of the feature and its
    first two coordinates as longitude and latitude, null where the
    array is shorter. *)
Theorem silver_from_geojson :
  ∀ (fs : list TowerJson.row) (bronze : list Cdr.row) (c : Cdr.row)
    (t : Tower.row),
    (c, t) ∈ cdr_stream_silver (static_tower_data fs) bronze ↔
      c ∈ bronze ∧ Cdr.type c ≠ None ∧
      ∃ f s, f ∈ fs ∧ tower_of f t ∧ Cdr.towerId c = Some s ∧
             TowerJson.GlobalID (TowerJson.properties_ f) = Some s.
Proof.
  intros fs bronze c t. unfold cdr_stream_silver.
  rewrite elem_of_cdr_table, elem_of_join, col_eq_true,
    elem_of_static_tower_data. simpl. split.
  - intros ((Hc & (f & Hf & Hof) & (s & Hs & Hg)) & _ & Hy).
    split_and!; [done|done|]. exists f, s. split_and!; try done.
    destruct Hof as (<- & _). done.
  - intros (Hc & Hy & f & s & Hf & Hof & Hs & Hg).
    split_and!; try done.
    + by exists f.
    + exists s. split; [done|]. destruct Hof as (-> & _). done.
    + by rewrite Hs.
Qed.

Lemma table_fmap_pair {A B} (es : list (dlt.expectation (A * B)))
    (a : A) (l : list B) (keep : bool) :
  (∀ b, forallb (λ e, dlt.keeps e (a, b)) es = keep) →
  dlt.table es ((λ b, (a, b)) <$> l) =
    if keep then (λ b, (a, b)) <$> l else [].
Proof.
  intros Hk. unfold dlt.table. induction l as [|b l IH].
  - by destruct keep.
  - rewrite fmap_cons, filter_cons, IH, Hk. destruct keep.
    + by rewrite decide_True.
    + by rewrite decide_False.
Qed.

Lemma cdr_silver_one towers c :
  cdr_stream_silver towers [c] = cdr_enriched towers c.
Proof.
  unfold cdr_stream_silver, cdr_enriched, join. simpl. rewrite app_nil_r.
  fold (tower_records towers (Cdr.towerId c)).
  destruct (Cdr.towerId c) as [s|] eqn:Hs.
  - rewrite (table_fmap_pair _ _ _ (bool_decide (Cdr.type c ≠ None))).
    + case_bool_decide; by case_decide.
    + intros t. unfold cdr_expectations, dlt.keeps, dlt.violates. simpl.
      rewrite Hs. by destruct (Cdr.type c).
  - rewrite tower_records_None. by case_decide.
Qed.

Lemma pcmd_silver_one towers p :
  pcmd_stream_silver towers [p] = pcmd_enriched towers p.
Proof.
  unfold pcmd_stream_silver, pcmd_enriched, join. simpl. rewrite app_nil_r.
  fold (tower_records towers (Pcmd.towerId p)).
  destruct (Pcmd.towerId p) as [s|] eqn:Hs.
  - rewrite (table_fmap_pair _ _ _ (bool_decide (Pcmd.ProcedureId p ≠ None))).
    + case_bool_decide; by case_decide.
    + intros t. unfold pcmd_expectations, dlt.keeps, dlt.violates. simpl.
      rewrite Hs. by destruct (Pcmd.ProcedureId p).
  - rewrite tower_records_None. by case_decide.
Qed.

(** X2. The silver tables work event by event: the table of two batches
    is the table of the first followed by that of the second, and one
    event gives one row per directory record with its tower id when its
    type (CDR) or procedure id (PCMD) is set, and no row otherwise.  A
    directory that lists a tower twice therefore doubles its events. *)
Theorem silver_rows_per_event :
  ∀ (towers : list Tower.row),
    (∀ b1 b2, cdr_stream_silver towers (b1 ++ b2) =
                cdr_stream_silver towers b1 ++ cdr_stream_silver towers b2) ∧
    (∀ c, cdr_stream_silver towers [c] = cdr_enriched towers c) ∧
    (∀ b1 b2, pcmd_stream_silver towers (b1 ++ b2) =
                pcmd_stream_silver towers b1 ++ pcmd_stream_silver towers b2) ∧
    (∀ p, pcmd_stream_silver towers [p] = pcmd_enriched towers p) ∧
    cdr_stream_silver towers_twice [cdr "T1" "call" "answered" (at_ 10 0 15)]
    = [ (cdr "T1" "call" "answered" (at_ 10 0 15), tower_T1);
        (cdr "T1" "call" "answered" (at_ 10 0 15), tower_T1_again) ].
Proof.
  intros towers. split_and!.
  - apply cdr_stream_silver_app.
  - apply cdr_silver_one.
  - apply pcmd_stream_silver_app.
  - apply pcmd_silver_one.
  - by vm_compute.
Qed.

Lemma tower_known_records towers id :
  tower_known towers id ↔ tower_records towers id ≠ [].
Proof.
  unfold tower_known. rewrite Exists_exists. split.
  - intros (t & Ht%list_elem_of_In & Hon) E.
    assert (t ∈ tower_records towers id) as Hin.
    { apply elem_of_tower_records. split; [done|]. by apply col_eq_true. }
    rewrite E in Hin. by apply not_elem_of_nil in Hin.
  - intros (t & Ht)%nonempty_elem.
    apply elem_of_tower_records in Ht as [Ht Hs]. exists t.
    split; [by apply list_elem_of_In|]. by apply col_eq_true.
Qed.

(** With distinct ids, at most one record joins with a tower id. *)
Lemma distinct_ids_records towers id :
  distinct_ids towers → (length (tower_records towers id) ≤ 1)%nat.
Proof.
  unfold distinct_ids. induction towers as [|t ts IH]; intros Hnd; [simpl; lia|].
  unfold tower_records. rewrite filter_cons.
  fold (tower_records ts id). case_decide as Hm.
  - apply holds_col_eq in Hm as (s & -> & Hg).
    simpl in Hnd. rewrite Hg in Hnd. simpl in Hnd.
    apply list.NoDup_cons in Hnd as [Hs _].
    assert (tower_records ts (Some s) = []) as ->; [|simpl; lia].
    apply filter_none. intros t' Ht' (s' & [= <-] & Hg')%holds_col_eq.
    apply Hs, list_elem_of_omap. by exists t'.
  - apply IH. simpl in Hnd.
    destruct (Tower.GlobalID t); simpl in Hnd; [|done].
    by apply list.NoDup_cons in Hnd as [_ ?].
Qed.

Lemma cdr_enriched_events towers c :
  distinct_ids towers →
  (cdr_enriched towers c).*1 =
    filter (λ c, Cdr.type c ≠ None ∧ tower_known towers (Cdr.towerId c)) [c].
Proof.
  intros Hd. pose proof (distinct_ids_records towers (Cdr.towerId c) Hd) as Hl.
  unfold cdr_enriched. rewrite filter_cons, filter_nil.
  pose proof (tower_known_records towers (Cdr.towerId c)) as Hk.
  destruct (tower_records towers (Cdr.towerId c)) as [|t [|t' l]];
    [..|simpl in Hl; lia].
  - destruct (decide (Cdr.type c = None)) as [Hy|Hy];
      (destruct (decide (Cdr.type c ≠ None ∧
                         tower_known towers (Cdr.towerId c)))
         as [[Hy' Hkn]|Hn]; simpl; [by apply Hk in Hkn|done]).
  - destruct (decide (Cdr.type c = None)) as [Hy|Hy];
      (destruct (decide (Cdr.type c ≠ None ∧
                         tower_known towers (Cdr.towerId c)))
         as [[Hy' Hkn]|Hn]; simpl; try done).
    exfalso. apply Hn. split; [done|]. by apply Hk.
Qed.

Lemma pcmd_enriched_events towers p :
  distinct_ids towers →
  (pcmd_enriched towers p).*1 =
    filter (λ p, Pcmd.ProcedureId p ≠ None ∧
                 tower_known towers (Pcmd.towerId p)) [p].
Proof.
  intros Hd. pose proof (distinct_ids_records towers (Pcmd.towerId p) Hd) as Hl.
  unfold pcmd_enriched. rewrite filter_cons, filter_nil.
  pose proof (tower_known_records towers (Pcmd.towerId p)) as Hk.
  destruct (tower_records towers (Pcmd.towerId p)) as [|t [|t' l]];
    [..|simpl in Hl; lia].
  - destruct (decide (Pcmd.ProcedureId p = None)) as [Hy|Hy];
      (destruct (decide (Pcmd.ProcedureId p ≠ None ∧
                         tower_known towers (Pcmd.towerId p)))
         as [[Hy' Hkn]|Hn]; simpl; [by apply Hk in Hkn|done]).
  - destruct (decide (Pcmd.ProcedureId p = None)) as [Hy|Hy];
      (destruct (decide (Pcmd.ProcedureId p ≠ None ∧
                         tower_known towers (Pcmd.towerId p)))
         as [[Hy' Hkn]|Hn]; simpl; try done).
    exfalso. apply Hn. split; [done|]. by apply Hk.
Qed.

(** X3. When the ids of the directory are distinct, the silver tables
    keep at most one row per event and keep the order of the stream: the
    events of the CDR silver table are the events of the stream that
    have a type and a known tower, in stream order; those of the PCMD
    silver table are the events that have a procedure id and a known
    tower. *)
Theorem silver_events_distinct_ids :
  ∀ (towers : list Tower.row),
    distinct_ids towers →
    (∀ bronze,
       (cdr_stream_silver towers bronze).*1 =
         filter (λ c, Cdr.type c ≠ None ∧ tower_known towers (Cdr.towerId c))
                bronze) ∧
    (∀ bronze,
       (pcmd_stream_silver towers bronze).*1 =
         filter (λ p, Pcmd.ProcedureId p ≠ None ∧
                      tower_known towers (Pcmd.towerId p)) bronze).
Proof.
  intros towers Hd. split.
  - induction bronze as [|c b IH]; [done|].
    change (c :: b) with ([c] ++ b).
    rewrite cdr_stream_silver_app, fmap_app, list.filter_app, IH.
    by rewrite cdr_silver_one, cdr_enriched_events.
  - induction bronze as [|p b IH]; [done|].
    change (p :: b) with ([p] ++ b).
    rewrite pcmd_stream_silver_app, fmap_app, list.filter_app, IH.
    by rewrite pcmd_silver_one, pcmd_enriched_events.
Qed.

Lemma silver_events_distinct_ids_witness :
  distinct_ids [tower_T1] ∧
  (cdr_stream_silver [tower_T1] (scenario_C :: scenario_A)).*1 = scenario_A.
Proof.
  assert (distinct_ids [tower_T1]) as Hd.
  { unfold distinct_ids. simpl. apply NoDup_singleton. }
  split; [exact Hd|].
  rewrite (proj1 (silver_events_distinct_ids [tower_T1] Hd)).
  unfold scenario_A, scenario_C.
  rewrite !filter_cons, filter_nil.
  rewrite decide_False, !decide_True; [reflexivity|..].
  - split; [discriminate|]. apply Exists_cons_hd. reflexivity.
  - split; [discriminate|]. apply Exists_cons_hd. reflexivity.
  - intros [_ H]. inversion H as [? ? Hc|? ? Hc]; [|inversion Hc].
    vm_compute in Hc. discriminate Hc.
Defined.

(** ** Expectation metrics *)

Lemma filter_ext_in {A} (P Q : A → Prop)
    `{∀ x, Decision (P x)} `{∀ x, Decision (Q x)} (l : list A) :
  (∀ x, x ∈ l → (P x ↔ Q x)) → filter P l = filter Q l.
Proof.
  induction l as [|x l IH]; intros Hext; [done|].
  rewrite !filter_cons, IH by (intros y Hy; apply Hext; by right).
  destruct (Hext x (list_elem_of_here _ _)) as [H1 H2].
  destruct (decide (P x)), (decide (Q x)); try done.
  - by exfalso; auto.
  - by exfalso; auto.
Qed.

Lemma length_filter_split {A} (P : A → Prop) `{∀ x, Decision (P x)}
    (l : list A) :
  (length (filter (λ x, ¬ P x) l) + length (filter P l) = length l)%nat.
Proof.
  rewrite Nat.add_comm, <- length_app. by rewrite filter_app_complement.
Qed.

Lemma gt_zero_holds (d : option Q) :
  F.holds (F.gt_zero d) = true ↔ duration_positive d.
Proof.
  unfold F.gt_zero, F.Qltb, duration_positive. destruct d as [x|]; simpl.
  - destruct (0 ?= x)%Q eqn:E; split; try done.
    + intros (y & [= <-] & Hy). apply (proj1 (Qlt_alt _ _)) in Hy.
      congruence.
    + intros _. exists x. split; [done|]. by apply (proj2 (Qlt_alt _ _)).
    + intros (y & [= <-] & Hy). apply (proj1 (Qlt_alt _ _)) in Hy.
      congruence.
  - split; [done|]. by intros (y & [=] & _).
Qed.

Lemma holds_is_not_null {V} (c : option V) :
  F.holds (F.is_not_null c) = true ↔ c ≠ None.
Proof.
  rewrite <- is_not_null_true. unfold F.holds, F.is_not_null.
  destruct (bool_decide (is_Some c)); split; done.
Qed.

Lemma violates_is_not_null {V} (c : option V) :
  negb (F.holds (F.is_not_null c)) = true ↔ c = None.
Proof.
  rewrite negb_true_iff, <- not_true_iff_false, holds_is_not_null.
  destruct c as [x|]; split.
  - intros H. by destruct H.
  - done.
  - done.
  - intros _ H. by apply H.
Qed.

Lemma violates_gt_zero (d : option Q) :
  negb (F.holds (F.gt_zero d)) = true ↔ ¬ duration_positive d.
Proof.
  by rewrite negb_true_iff, <- not_true_iff_false, gt_zero_holds.
Qed.

Lemma cdr_join_tower_set towers bronze r :
  r ∈ join bronze towers (λ c t, col_eq (Cdr.towerId c) (Tower.GlobalID t)) →
  Cdr.towerId r.1 ≠ None.
Proof.
  destruct r as [c t]. rewrite elem_of_join, col_eq_true.
  intros (_ & _ & s & Hs & _). simpl. by rewrite Hs.
Qed.

Lemma pcmd_join_tower_set towers bronze r :
  r ∈ join bronze towers (λ p t, col_eq (Pcmd.towerId p) (Tower.GlobalID t)) →
  Pcmd.towerId r.1 ≠ None.
Proof.
  destruct r as [c t]. rewrite elem_of_join, col_eq_true.
  intros (_ & _ & s & Hs & _). simpl. by rewrite Hs.
Qed.

(** X4. On the CDR silver table the towerId expectation can never fail,
    because it is checked on the rows the join returns and the join keeps
    no row with a null tower id: its failed-record count is always zero;
    the count of the type expectation is the number of joined rows
    without a type, and these are exactly the rows missing from the
    table. *)
Theorem cdr_expectation_metrics :
  ∀ (towers : list Tower.row) (bronze : list Cdr.row),
    let q := join bronze towers
               (λ c t, col_eq (Cdr.towerId c) (Tower.GlobalID t)) in
    let no_type := length (filter (λ r, Cdr.type r.1 = None) q) in
    dlt.failed_records cdr_expectations q =
      [("towerId", 0%nat); ("type", no_type)] ∧
    (length (cdr_stream_silver towers bronze) + no_type = length q)%nat.
Proof.
  intros towers bronze q no_type.
  assert (∀ r, r ∈ q → Cdr.towerId r.1 ≠ None) as Hq
    by apply cdr_join_tower_set.
  split.
  - unfold dlt.failed_records, cdr_expectations, dlt.violates. simpl.
    repeat f_equal.
    + rewrite filter_none; [done|]. intros r Hr H.
      apply (violates_is_not_null (Cdr.towerId r.1)) in H. by apply Hq in H.
    + unfold no_type. f_equal. apply list_filter_iff. intros r.
      apply (violates_is_not_null (Cdr.type r.1)).
  - unfold no_type.
    rewrite <- (length_filter_split (λ r, Cdr.type r.1 = None) q).
    f_equal. f_equal. unfold cdr_stream_silver. fold q.
    apply filter_ext_in. intros r Hr.
    pose proof (elem_of_cdr_table q r) as He.
    unfold dlt.table in He. rewrite list_elem_of_filter in He.
    split.
    + intros Hk. by apply He.
    + intros Hy. apply He. split_and!; auto.
Qed.

(** X5. On the PCMD silver table the towerId expectation never fails
    either; the ProcedureId count is the number of joined rows without a
    procedure id, which are exactly the rows missing from the table; the
    ProcedureDuration count is the number of joined rows whose duration
    is null, zero or negative, and none of them is removed for it. *)
Theorem pcmd_expectation_metrics :
  ∀ (towers : list Tower.row) (bronze : list Pcmd.row),
    let q := join bronze towers
               (λ p t, col_eq (Pcmd.towerId p) (Tower.GlobalID t)) in
    let no_id := length (filter (λ r, Pcmd.ProcedureId r.1 = None) q) in
    let flagged :=
      length (filter (λ r, ¬ duration_positive (Pcmd.ProcedureDuration r.1)) q) in
    dlt.failed_records pcmd_expectations q =
      [("towerId", 0%nat); ("ProcedureId", no_id);
       ("ProcedureDuration", flagged)] ∧
    (length (pcmd_stream_silver towers bronze) + no_id = length q)%nat.
Proof.
  intros towers bronze q no_id flagged.
  assert (∀ r, r ∈ q → Pcmd.towerId r.1 ≠ None) as Hq
    by apply pcmd_join_tower_set.
  split.
  - unfold dlt.failed_records, pcmd_expectations, dlt.violates. simpl.
    repeat f_equal.
    + rewrite filter_none; [done|]. intros r Hr H.
      apply (violates_is_not_null (Pcmd.towerId r.1)) in H. by apply Hq in H.
    + unfold no_id. f_equal. apply list_filter_iff. intros r.
      apply (violates_is_not_null (Pcmd.ProcedureId r.1)).
    + unfold flagged. f_equal. apply list_filter_iff. intros r.
      apply (violates_gt_zero (Pcmd.ProcedureDuration r.1)).
  - unfold no_id.
    rewrite <- (length_filter_split (λ r, Pcmd.ProcedureId r.1 = None) q).
    f_equal. f_equal. unfold pcmd_stream_silver. fold q.
    apply filter_ext_in. intros r Hr.
    pose proof (elem_of_pcmd_table q r) as He.
    unfold dlt.table in He. rewrite list_elem_of_filter in He.
    split.
    + intros Hk. by apply He.
    + intros Hy. apply He. split_and!; auto.
Qed.

(** ** Sums over the rows of an aggregated table *)

Lemma Zsum_app l1 l2 : Zsum (l1 ++ l2) = Zsum l1 + Zsum l2.
Proof.
  induction l1 as [|x l1 IH]; [done|].
  rewrite <- app_comm_cons, !Zsum_cons, IH. lia.
Qed.

(** A sum over the rows that satisfy a condition is the sum of the
    values with the others set to zero. *)
Lemma Zsum_filter {A} (h : A → Z) (Q : A → Prop) `{∀ x, Decision (Q x)}
    (l : list A) :
  Zsum (h <$> filter Q l) = Zsum ((λ x, if decide (Q x) then h x else 0) <$> l).
Proof.
  induction l as [|x l IH]; [done|].
  rewrite filter_cons, fmap_cons, Zsum_cons, <- IH.
  case_decide; [by rewrite fmap_cons, Zsum_cons|lia].
Qed.

(** When an aggregate of a group is the sum of a value of its rows, the
    sum of the aggregate over the buckets whose key satisfies a condition
    is the sum of the value over the input rows whose key satisfies it:
    grouping loses no row and counts none twice. *)
Lemma agg_filter_sum `{Countable K} {A R} (f : K → list A → R)
    (key : A → option K) (h : R → Z) (w : A → Z)
    (Q : R → Prop) (P : K → Prop)
    `{∀ b, Decision (Q b)} `{∀ k, Decision (P k)} (df : list A) :
  (∀ k g, h (f k g) = Zsum (w <$> g)) →
  (∀ k g, g ≠ [] → (Q (f k g) ↔ P k)) →
  Zsum (h <$> filter Q (rows (agg f (groupBy key df)))) =
    Zsum (w <$> filter (key_in key P) df).
Proof.
  intros Hh HQ. rewrite Zsum_filter.
  induction df as [|r df IH]; [done|].
  rewrite filter_cons.
  destruct (key r) as [k|] eqn:Hk.
  - rewrite (agg_groupBy_cons f key r df k Hk), rows_insert_sum, IH.
    rewrite lookup_agg, lookup_groupBy. unfold counter_of.
    assert (Q (f k (r :: group_of key k df)) ↔ P k) as Hnew by by apply HQ.
    set (g := group_of key k df) in *.
    assert (default 0 ((λ x, if decide (Q x) then h x else 0) <$>
                         (f k <$> match g with [] => None | a :: l => Some (a :: l) end))
            = if decide (P k) then Zsum (w <$> g) else 0) as ->.
    { clearbody g. destruct g as [|r' g']; [simpl; by case_decide|].
      set (g := r' :: g'). simpl.
      destruct (decide (P k)) as [HP|HP].
      - rewrite decide_True by by apply HQ. apply Hh.
      - rewrite decide_False; [done|]. intros HQ'. by apply HP, (HQ k g). }
    destruct (decide (key_in key P r)) as [HP|HP];
      unfold key_in in HP; rewrite Hk in HP; simpl in HP.
    + rewrite !decide_True by tauto.
      rewrite Hh, !fmap_cons, !Zsum_cons. lia.
    + rewrite !decide_False by tauto. lia.
  - rewrite (agg_groupBy_skip f key r df Hk), IH.
    destruct (decide (key_in key P r)) as [HP|HP]; [|done].
    unfold key_in in HP. by rewrite Hk in HP.
Qed.

(** ** Closed form of the CDR minute table *)

Lemma count_where_cons {A} (P : A → Prop) `{∀ x, Decision (P x)} x l :
  count_where P (x :: l) = (if decide (P x) then 1 else 0) + count_where P l.
Proof.
  unfold count_where. rewrite filter_cons. case_decide; simpl length; lia.
Qed.

Lemma count_when_where {A} (c : A → option string) (s : string) (g : list A) :
  F.count ((λ r, F.when (F.eq_lit (c r) s) (F.lit true)) <$> g) =
    count_where (λ r, c r = Some s) g.
Proof.
  induction g as [|r g IH]; [done|].
  rewrite count_where_cons, <- IH.
  change (r :: g) with ([r] ++ g). rewrite fmap_app, count_app. f_equal.
  etransitivity; [apply (count_when_eq (c r) s)|]. unfold indicator.
  case_bool_decide; by case_decide.
Qed.

Lemma cdr_minute_agg_counts k g :
  minute_counts (cdr_minute_agg k g) = event_counts g.
Proof.
  unfold minute_counts, event_counts, cdr_minute_agg. simpl.
  rewrite !(count_when_where (λ r, Cdr.status r.1)).
  rewrite !(count_when_where (λ r, Cdr.type r.1)).
  by rewrite count_lit.
Qed.

(** The group of a minute key holds the silver rows of the tower whose
    event time lies in the window of the key. *)
Lemma minute_group_event_in df k ts0 :
  k.1 = F.window minute ts0 →
  group_of cdr_minute_key k df = filter (event_in k.1 k.2) df.
Proof.
  intros Hk. unfold group_of. apply list_filter_iff. intros r.
  unfold cdr_minute_key, event_in. destruct k as [w tower]. simpl in *.
  subst w. destruct (Cdr.event_ts r.1) as [ts|]; simpl.
  - split.
    + intros E.
      assert (F.window minute ts = F.window minute ts0) as Hw by congruence.
      assert (Cdr.towerId r.1 = tower) as Ht by congruence.
      split; [done|]. exists ts. split; [done|].
      apply (window_eq_iff minute ts0 ts minute_pos) in Hw. exact Hw.
    + intros [-> (ts' & [= <-] & Hin)]. do 2 f_equal.
      apply (window_eq_iff minute ts0 ts minute_pos). exact Hin.
  - split; [done|]. by intros [_ (ts' & [=] & _)].
Qed.

(** The rows of the minute table, one by one. *)
Lemma cdr_minute_gold_row df b :
  b ∈ cdr_stream_minute_gold df →
  ∃ ts r, r ∈ df ∧ Cdr.event_ts r.1 = Some ts ∧
    let w := F.window minute ts in
    let evs := filter (event_in w (Cdr.towerId r.1)) df in
    r ∈ evs ∧ b = cdr_minute_agg (w, Cdr.towerId r.1) evs.
Proof.
  intros (k & r & -> & Hr & Hk)%elem_of_rows_agg.
  unfold cdr_minute_key in Hk.
  destruct (Cdr.event_ts r.1) as [ts|] eqn:Hts; [|done]. simpl in Hk.
  injection Hk as <-. exists ts, r. split_and!; [done|done|]. simpl.
  rewrite (minute_group_event_in df (F.window minute ts, Cdr.towerId r.1) ts)
    by done.
  split; [|done]. apply list_elem_of_filter. split; [|done].
  split; [done|]. exists ts. split; [done|].
  destruct (window_floor minute ts minute_pos) as (? & ? & _). lia.
Qed.

(** X6. A row of the CDR minute table counts the silver events of its
    tower in its minute: its date is the start of a minute, there is at
    least one such event, and answered, dropped, missed, call, text and
    the total are the numbers of these events with that status, with
    that type, and in all. *)
Theorem cdr_minute_gold_counts_events :
  ∀ (df : list (Cdr.row * Tower.row)) (b : CdrMinute.row),
    b ∈ cdr_stream_minute_gold df →
    ∃ s, CdrMinute.date b = Some s ∧ s `mod` minute = 0 ∧
      let evs := filter (event_in (s, s + minute) (CdrMinute.towerId b)) df in
      evs ≠ [] ∧ minute_counts b = event_counts evs.
Proof.
  intros df b (ts & r & Hr & Hts & Hin & ->)%cdr_minute_gold_row.
  destruct (window_floor minute ts minute_pos) as (_ & Hw2 & Hmod).
  exists (F.window minute ts).1.
  assert (((F.window minute ts).1, (F.window minute ts).1 + minute)
          = F.window minute ts) as Hw.
  { rewrite <- Hw2. by destruct (F.window minute ts). }
  cbn zeta. rewrite Hw. split_and!.
  - unfold cdr_minute_agg. simpl. apply first_const.
    intros E. rewrite E in Hin. by apply not_elem_of_nil in Hin.
  - done.
  - intros E. simpl in E. rewrite E in Hin. by apply not_elem_of_nil in Hin.
  - apply cdr_minute_agg_counts.
Qed.

Lemma cdr_minute_gold_counts_events_witness :
  scenario_A_bucket ∈
    cdr_stream_minute_gold (cdr_stream_silver [tower_T1] scenario_A) ∧
  ∃ s, CdrMinute.date scenario_A_bucket = Some s ∧ s `mod` minute = 0 ∧
    let evs := filter (event_in (s, s + minute)
                         (CdrMinute.towerId scenario_A_bucket))
                 (cdr_stream_silver [tower_T1] scenario_A) in
    evs ≠ [] ∧ minute_counts scenario_A_bucket = event_counts evs.
Proof.
  assert (scenario_A_bucket ∈
            cdr_stream_minute_gold (cdr_stream_silver [tower_T1] scenario_A))
    as Hin.
  { assert (cdr_stream_minute_gold (cdr_stream_silver [tower_T1] scenario_A)
            = [scenario_A_bucket]) as -> by (vm_compute; reflexivity).
    apply list_elem_of_here. }
  split; [exact Hin|].
  exact (cdr_minute_gold_counts_events _ _ Hin).
Defined.

(** ** Invariants of the CDR minute rows *)

Lemma count_where_nonneg {A} (P : A → Prop) `{∀ x, Decision (P x)} l :
  0 ≤ count_where P l.
Proof. unfold count_where. lia. Qed.

Lemma count_where_le {A} (P : A → Prop) `{∀ x, Decision (P x)} l :
  count_where P l ≤ Z.of_nat (length l).
Proof. unfold count_where. pose proof (length_filter P l). lia. Qed.

(** Values that exclude one another are counted on different rows. *)
Lemma count_where_exclusive3 {A} (c : A → option string) (s1 s2 s3 : string)
    (l : list A) :
  s1 ≠ s2 → s1 ≠ s3 → s2 ≠ s3 →
  count_where (λ r, c r = Some s1) l + count_where (λ r, c r = Some s2) l +
  count_where (λ r, c r = Some s3) l ≤ Z.of_nat (length l).
Proof.
  intros H12 H13 H23. induction l as [|r l IH]; [done|].
  rewrite !count_where_cons. simpl length.
  repeat case_decide; try lia; congruence.
Qed.

Lemma count_where_exclusive2 {A} (c : A → option string) (s1 s2 : string)
    (l : list A) :
  s1 ≠ s2 →
  count_where (λ r, c r = Some s1) l + count_where (λ r, c r = Some s2) l
  ≤ Z.of_nat (length l).
Proof.
  intros H12. induction l as [|r l IH]; [done|].
  rewrite !count_where_cons. simpl length.
  repeat case_decide; try lia; congruence.
Qed.

Lemma cdr_minute_agg_fields k g :
  CdrMinute.answered (cdr_minute_agg k g) =
    count_where (λ r, Cdr.status r.1 = Some "answered") g ∧
  CdrMinute.dropped (cdr_minute_agg k g) =
    count_where (λ r, Cdr.status r.1 = Some "dropped") g ∧
  CdrMinute.missed (cdr_minute_agg k g) =
    count_where (λ r, Cdr.status r.1 = Some "missed") g ∧
  CdrMinute.call (cdr_minute_agg k g) =
    count_where (λ r, Cdr.type r.1 = Some "call") g ∧
  CdrMinute.text (cdr_minute_agg k g) =
    count_where (λ r, Cdr.type r.1 = Some "text") g ∧
  CdrMinute.totalRecords_CDR (cdr_minute_agg k g) = Z.of_nat (length g).
Proof.
  pose proof (cdr_minute_agg_counts k g) as Hc.
  unfold minute_counts, event_counts in Hc.
  injection Hc as H1 H2 H3 H4 H5 H6.
  split_and!; [exact H1|exact H2|exact H3|exact H4|exact H5|exact H6].
Qed.

(** X7. Every row of the CDR minute table has a total of at least one,
    no negative counter, at most as many answered, dropped and missed
    records together as its total, and at most as many calls and texts
    together as its total. *)
Theorem cdr_minute_gold_invariants :
  ∀ (df : list (Cdr.row * Tower.row)) (b : CdrMinute.row),
    b ∈ cdr_stream_minute_gold df →
    1 ≤ CdrMinute.totalRecords_CDR b ∧
    0 ≤ CdrMinute.answered b ∧ 0 ≤ CdrMinute.dropped b ∧
    0 ≤ CdrMinute.missed b ∧ 0 ≤ CdrMinute.call b ∧ 0 ≤ CdrMinute.text b ∧
    CdrMinute.answered b + CdrMinute.dropped b + CdrMinute.missed b
      ≤ CdrMinute.totalRecords_CDR b ∧
    CdrMinute.call b + CdrMinute.text b ≤ CdrMinute.totalRecords_CDR b.
Proof.
  intros df b (ts & r & Hr & Hts & Hin & ->)%cdr_minute_gold_row.
  set (k := (F.window minute ts, Cdr.towerId r.1)).
  set (evs := filter (event_in (F.window minute ts) (Cdr.towerId r.1)) df) in *.
  destruct (cdr_minute_agg_fields k evs) as (-> & -> & -> & -> & -> & ->).
  assert (1 ≤ Z.of_nat (length evs)).
  { destruct evs; [by apply not_elem_of_nil in Hin|simpl length; lia]. }
  split_and!; try done; try apply count_where_nonneg.
  - by apply (count_where_exclusive3 (λ r, Cdr.status r.1)).
  - by apply (count_where_exclusive2 (λ r, Cdr.type r.1)).
Qed.

Lemma cdr_minute_gold_invariants_witness :
  scenario_A_bucket ∈
    cdr_stream_minute_gold (cdr_stream_silver [tower_T1] scenario_A) ∧
  CdrMinute.answered scenario_A_bucket + CdrMinute.dropped scenario_A_bucket
    + CdrMinute.missed scenario_A_bucket
    ≤ CdrMinute.totalRecords_CDR scenario_A_bucket.
Proof.
  assert (scenario_A_bucket ∈
            cdr_stream_minute_gold (cdr_stream_silver [tower_T1] scenario_A))
    as Hin.
  { assert (cdr_stream_minute_gold (cdr_stream_silver [tower_T1] scenario_A)
            = [scenario_A_bucket]) as -> by (vm_compute; reflexivity).
    apply list_elem_of_here. }
  split; [exact Hin|].
  destruct (cdr_minute_gold_invariants _ _ Hin) as (_ & _ & _ & _ & _ & _ & H & _).
  exact H.
Defined.

(** ** One row per key *)

(** When a projection of the aggregate determines the key, no two rows
    of the aggregated table have the same projection. *)
Lemma rows_agg_NoDup `{Countable K} {A R K'} (f : K → list A → R)
    (key : A → option K) (π : R → K') (ι : K → K') (df : list A) :
  (∀ k r, r ∈ df → key r = Some k → π (f k (group_of key k df)) = ι k) →
  (∀ k1 k2 r1 r2, key r1 = Some k1 → key r2 = Some k2 →
                  ι k1 = ι k2 → k1 = k2) →
  NoDup (π <$> rows (agg f (groupBy key df))).
Proof.
  intros Hπ Hι. unfold rows. rewrite <- list_fmap_compose.
  apply NoDup_fmap_2_strong; [|apply NoDup_map_to_list].
  intros [k1 b1] [k2 b2] H1%elem_of_map_to_list H2%elem_of_map_to_list E.
  simpl in E.
  assert (∀ k b, agg f (groupBy key df) !! k = Some b →
            ∃ r, r ∈ df ∧ key r = Some k ∧ π b = ι k) as Hkey.
  { intros k b [-> Hne]%lookup_agg_Some.
    apply nonempty_elem in Hne as [r [Hr Hk]%elem_of_group_of].
    exists r. split_and!; [done|done|]. by apply (Hπ k r). }
  destruct (Hkey k1 b1 H1) as (r1 & _ & Hk1 & E1).
  destruct (Hkey k2 b2 H2) as (r2 & _ & Hk2 & E2).
  assert (k1 = k2) as -> by (apply (Hι k1 k2 r1 r2); congruence).
  congruence.
Qed.

Lemma window_start_inj d ts1 ts2 :
  (F.window d ts1).1 = (F.window d ts2).1 → F.window d ts1 = F.window d ts2.
Proof. unfold F.window. simpl. by intros ->. Qed.

(** X8. Each gold table has one row per key: no two rows of the CDR or
    of the PCMD minute table have the same date and tower id, and no two
    rows of the hour table, or of the day table, have the same window
    and tower id. *)
Theorem gold_rows_unique :
  (∀ df : list (Cdr.row * Tower.row),
     NoDup ((λ b, (CdrMinute.date b, CdrMinute.towerId b))
              <$> cdr_stream_minute_gold df)) ∧
  (∀ df : list (Pcmd.row * Tower.row),
     NoDup ((λ b, (PcmdMinute.date b, PcmdMinute.towerId b))
              <$> pcmd_stream_minute_gold df)) ∧
  (∀ table : list CdrMinute.row,
     NoDup ((λ b, (CdrRollup.window b, CdrRollup.towerId b))
              <$> cdr_stream_hour_gold table)) ∧
  (∀ table : list CdrMinute.row,
     NoDup ((λ b, (CdrRollup.window b, CdrRollup.towerId b))
              <$> cdr_stream_day_gold table)).
Proof.
  split_and!.
  - intros df. unfold cdr_stream_minute_gold, cdr_minute_buckets.
    apply (rows_agg_NoDup _ _ _ (λ k : Key, (Some k.1.1, k.2))).
    + intros k r Hr Hk. unfold cdr_minute_agg. simpl. f_equal.
      apply first_const. intros E.
      assert (r ∈ group_of cdr_minute_key k df) as Hin
        by by apply elem_of_group_of.
      rewrite E in Hin. by apply not_elem_of_nil in Hin.
    + intros k1 k2 r1 r2 H1 H2 E. unfold cdr_minute_key in H1, H2.
      destruct (Cdr.event_ts r1.1) as [t1|]; [|done].
      destruct (Cdr.event_ts r2.1) as [t2|]; [|done].
      simpl in H1, H2. injection H1 as <-. injection H2 as <-.
      simpl in E. injection E as E1 E2. f_equal; [|done].
      by apply window_start_inj.
  - intros df. unfold pcmd_stream_minute_gold, pcmd_minute_buckets.
    apply (rows_agg_NoDup _ _ _ (λ k : Key, (Some k.1.1, k.2))).
    + intros k r Hr Hk. unfold pcmd_minute_agg. simpl. f_equal.
      apply first_const. intros E.
      assert (r ∈ group_of pcmd_minute_key k df) as Hin
        by by apply elem_of_group_of.
      rewrite E in Hin. by apply not_elem_of_nil in Hin.
    + intros k1 k2 r1 r2 H1 H2 E. unfold pcmd_minute_key in H1, H2.
      destruct (Pcmd.event_ts r1.1) as [t1|]; [|done].
      destruct (Pcmd.event_ts r2.1) as [t2|]; [|done].
      simpl in H1, H2. injection H1 as <-. injection H2 as <-.
      simpl in E. injection E as E1 E2. f_equal; [|done].
      by apply window_start_inj.
  - intros table. unfold cdr_stream_hour_gold, cdr_rollup_buckets.
    apply (rows_agg_NoDup _ _ _ (λ k : Key, (k.1, k.2))).
    + done.
    + intros [w1 t1] [w2 t2] _ _ _ _ E. simpl in E. congruence.
  - intros table. unfold cdr_stream_day_gold, cdr_rollup_buckets.
    apply (rows_agg_NoDup _ _ _ (λ k : Key, (k.1, k.2))).
    + done.
    + intros [w1 t1] [w2 t2] _ _ _ _ E. simpl in E. congruence.
Qed.

(** ** From the events to the hour and day tables *)

Lemma count_where_Zsum {A} (P : A → Prop) `{∀ x, Decision (P x)} (l : list A) :
  count_where P l = Zsum ((λ x, if decide (P x) then 1 else 0) <$> l).
Proof.
  induction l as [|x l IH]; [done|].
  by rewrite count_where_cons, fmap_cons, Zsum_cons, IH.
Qed.

Lemma count_where_True {A} (l : list A) :
  count_where (λ _, True) l = Z.of_nat (length l).
Proof.
  induction l as [|x l IH]; [done|].
  rewrite count_where_cons, IH. simpl length. case_decide; [lia|done].
Qed.

(** Flooring to a multiple of [m] does not move a timestamp across a
    bound that is itself a multiple of [m]. *)
Lemma floor_in_aligned (m a b t : Z) :
  0 < m → a `mod` m = 0 → b `mod` m = 0 →
  (a ≤ m * (t / m) < b ↔ a ≤ t < b).
Proof.
  intros Hm Ha Hb.
  apply Z.mod_divide in Ha as [a' ->]; [|lia].
  apply Z.mod_divide in Hb as [b' ->]; [|lia].
  pose proof (Z.div_mod t m ltac:(lia)) as Ht.
  pose proof (Z.mod_pos_bound t m Hm) as Hr.
  generalize dependent (t / m). generalize dependent (t `mod` m).
  intros r Hr q Ht. subst t.
  split; intros [H1 H2]; split.
  - lia.
  - destruct (decide (q < b')); [nia|nia].
  - destruct (decide (a' ≤ q)); [nia|nia].
  - lia.
Qed.

(** The sum of a counter over the minute rows of a tower in a window
    aligned on the minute is the number of the silver events of the
    tower in the window that the counter counts. *)
Lemma minute_sum_events (h : CdrMinute.row → Z)
    (p : Cdr.row * Tower.row → Prop) `{∀ r, Decision (p r)}
    (w : Z * Z) (tid : option string) (df : list (Cdr.row * Tower.row)) :
  (∀ k g, h (cdr_minute_agg k g) = count_where p g) →
  w.1 `mod` minute = 0 → w.2 `mod` minute = 0 →
  Zsum (h <$> filter (in_window w tid) (cdr_stream_minute_gold df)) =
    count_where p (filter (event_in w tid) df).
Proof.
  intros Hh Hw1 Hw2. unfold cdr_stream_minute_gold, cdr_minute_buckets.
  rewrite (agg_filter_sum cdr_minute_agg cdr_minute_key h
             (λ r, if decide (p r) then 1 else 0)
             (in_window w tid)
             (λ k : Key, k.2 = tid ∧ w.1 ≤ k.1.1 < w.2)).
  - rewrite count_where_Zsum. do 2 f_equal.
    apply list_filter_iff. intros r.
    unfold key_in, cdr_minute_key, event_in.
    destruct (Cdr.event_ts r.1) as [ts|]; simpl.
    + rewrite (floor_in_aligned minute w.1 w.2 ts minute_pos Hw1 Hw2).
      split.
      * intros [? ?]. split; [done|]. by exists ts.
      * intros [? (ts' & [= <-] & ?)]. done.
    + split; [done|]. by intros [_ (ts' & [=] & _)].
  - intros k g. by rewrite Hh, count_where_Zsum.
  - intros k g Hg. unfold in_window, cdr_minute_agg. simpl.
    rewrite first_const by done. split.
    + intros [? (ts & [= <-] & ?)]. done.
    + intros [? ?]. split; [done|]. by exists k.1.1.
Qed.

Lemma rollup_counts_events_aux d df b :
  0 < d → d `mod` minute = 0 →
  b ∈ rows (cdr_rollup_buckets d (cdr_stream_minute_gold df)) →
  rollup_counts b =
    Some <$> event_counts
               (filter (event_in (CdrRollup.window b) (CdrRollup.towerId b)) df).
Proof.
  intros Hd Hdm Hb.
  destruct (rollup_bucket_sums d _ b Hd Hb)
    as (Hw2 & Hw1 & Hdr & Han & Hmi & Htx & Hca & Hto).
  set (w := CdrRollup.window b) in *.
  set (tid := CdrRollup.towerId b) in *.
  assert (w.1 `mod` minute = 0) as Hm1.
  { apply Z.mod_divide; [by unfold minute|].
    apply Z.mod_divide in Hw1; [|lia]. apply Z.mod_divide in Hdm; [|by unfold minute].
    by etransitivity. }
  assert (w.2 `mod` minute = 0) as Hm2.
  { rewrite Hw2. rewrite Z.add_mod, Hm1, Hdm by (by unfold minute). done. }
  unfold rollup_counts, event_counts.
  rewrite Han, Hdr, Hmi, Hca, Htx, Hto. simpl.
  pose proof (λ k g, proj1 (cdr_minute_agg_fields k g)) as F1.
  pose proof (λ k g, proj1 (proj2 (cdr_minute_agg_fields k g))) as F2.
  pose proof (λ k g, proj1 (proj2 (proj2 (cdr_minute_agg_fields k g)))) as F3.
  pose proof (λ k g, proj1 (proj2 (proj2 (proj2 (cdr_minute_agg_fields k g)))))
    as F4.
  pose proof (λ k g, proj1 (proj2 (proj2 (proj2 (proj2
                       (cdr_minute_agg_fields k g)))))) as F5.
  assert (∀ k g, CdrMinute.totalRecords_CDR (cdr_minute_agg k g) =
                 count_where (λ _, True) g) as F6.
  { intros k g. rewrite count_where_True. apply cdr_minute_agg_fields. }
  rewrite (minute_sum_events _ _ w tid df F1 Hm1 Hm2).
  rewrite (minute_sum_events _ _ w tid df F2 Hm1 Hm2).
  rewrite (minute_sum_events _ _ w tid df F3 Hm1 Hm2).
  rewrite (minute_sum_events _ _ w tid df F4 Hm1 Hm2).
  rewrite (minute_sum_events _ _ w tid df F5 Hm1 Hm2).
  rewrite (minute_sum_events _ _ w tid df F6 Hm1 Hm2).
  by rewrite count_where_True.
Qed.

(** X9. The hour and day tables count the events themselves: in a row of
    the hour table computed from the minute table of a silver stream,
    answered, dropped, missed, call, text and the total are the numbers
    of silver events of the row's tower whose event time lies in the
    row's window, by status, by type and in all; the window is one hour
    long and starts on a full hour.  The same holds for the day table
    with windows of one day. *)
Theorem rollup_counts_events :
  ∀ (df : list (Cdr.row * Tower.row)),
    (∀ b, b ∈ cdr_stream_hour_gold (cdr_stream_minute_gold df) →
       let w := CdrRollup.window b in
       w.2 = w.1 + hour ∧ w.1 `mod` hour = 0 ∧
       rollup_counts b =
         Some <$> event_counts (filter (event_in w (CdrRollup.towerId b)) df)) ∧
    (∀ b, b ∈ cdr_stream_day_gold (cdr_stream_minute_gold df) →
       let w := CdrRollup.window b in
       w.2 = w.1 + day ∧ w.1 `mod` day = 0 ∧
       rollup_counts b =
         Some <$> event_counts (filter (event_in w (CdrRollup.towerId b)) df)).
Proof.
  intros df. split.
  - intros b Hb w.
    destruct (rollup_bucket_sums hour _ b hour_pos Hb) as (? & ? & _).
    split_and!; [done|done|].
    by apply (rollup_counts_events_aux hour).
  - intros b Hb w.
    destruct (rollup_bucket_sums day _ b day_pos Hb) as (? & ? & _).
    split_and!; [done|done|].
    by apply (rollup_counts_events_aux day).
Qed.

Lemma rollup_counts_events_witness :
  ∃ b, b ∈ cdr_stream_hour_gold
             (cdr_stream_minute_gold (cdr_stream_silver [tower_T1] scenario_A)) ∧
       rollup_counts b =
         Some <$> event_counts
                    (filter (event_in (CdrRollup.window b) (CdrRollup.towerId b))
                            (cdr_stream_silver [tower_T1] scenario_A)).
Proof.
  set (df := cdr_stream_silver [tower_T1] scenario_A).
  destruct (cdr_stream_hour_gold (cdr_stream_minute_gold df)) as [|b l] eqn:E;
    [vm_compute in E; discriminate E|].
  assert (b ∈ cdr_stream_hour_gold (cdr_stream_minute_gold df)) as Hb.
  { rewrite E. apply list_elem_of_here. }
  rewrite <- E. exists b. split; [exact Hb|].
  destruct (proj1 (rollup_counts_events df) b Hb) as (_ & _ & H). exact H.
Defined.

(** ** Windows inside windows *)

Lemma window_of_start (d1 c ts : Z) :
  0 < d1 → 0 < c →
  F.window (d1 * c) (F.window d1 ts).1 = F.window (d1 * c) ts.
Proof.
  intros Hd Hc. unfold F.window. simpl.
  assert ((d1 * (ts / d1)) / (d1 * c) = ts / (d1 * c)) as ->; [|done].
  rewrite Z.div_mul_cancel_l by lia.
  rewrite Z.div_div by lia. done.
Qed.

(** X10. The window of an hour, or of a day, that contains the start of
    the minute of a timestamp is the one that contains the timestamp
    itself, and likewise for the day of the start of its hour: a minute
    row is rolled up into the hour and the day of the events it counts.
    Flooring twice to the same duration changes nothing. *)
Theorem window_of_window :
  ∀ ts : Z,
    F.window hour (F.window minute ts).1 = F.window hour ts ∧
    F.window day (F.window minute ts).1 = F.window day ts ∧
    F.window day (F.window hour ts).1 = F.window day ts ∧
    F.window minute (F.window minute ts).1 = F.window minute ts ∧
    (F.window hour ts).1 ≤ (F.window minute ts).1 ∧
    (F.window minute ts).2 ≤ (F.window hour ts).2.
Proof.
  intros ts.
  assert (F.window hour (F.window minute ts).1 = F.window hour ts) as Hh
    by (apply (window_of_start minute 60 ts); done).
  split_and!.
  - done.
  - apply (window_of_start minute (60 * 24) ts); done.
  - apply (window_of_start hour 24 ts); done.
  - rewrite <- (Z.mul_1_r minute) at 1 3.
    apply (window_of_start minute 1 ts); done.
  - rewrite <- Hh.
    destruct (window_floor hour (F.window minute ts).1 hour_pos) as (? & _).
    lia.
  - destruct (window_floor minute ts minute_pos) as (_ & -> & Hm).
    destruct (window_floor hour (F.window minute ts).1 hour_pos)
      as ([H1 H2] & H3 & H4).
    rewrite Hh in H1, H2, H3, H4. rewrite H3.
    apply Z.mod_divide in Hm as [a Ha]; [|by unfold minute].
    apply Z.mod_divide in H4 as [b Hb]; [|by unfold hour, minute].
    unfold hour in *. unfold minute in *. lia.
Qed.

(** ** Nothing lost between the levels *)

Lemma filter_all {A} (P : A → Prop) `{∀ x, Decision (P x)} (l : list A) :
  (∀ x, x ∈ l → P x) → filter P l = l.
Proof.
  induction l as [|x l IH]; intros Hall; [done|].
  rewrite filter_cons, decide_True by (apply Hall; left).
  f_equal. apply IH. intros y Hy. apply Hall. by right.
Qed.

Lemma rollup_total_sum d (table : list CdrMinute.row) :
  Zsum ((λ b, default 0 (CdrRollup.totalRecords_CDR b))
          <$> rows (cdr_rollup_buckets d table)) =
    Zsum (CdrMinute.totalRecords_CDR
            <$> filter (λ r, is_Some (CdrMinute.date r)) table).
Proof.
  unfold cdr_rollup_buckets.
  pose proof (agg_filter_sum cdr_rollup_agg (cdr_rollup_key d)
                (λ b, default 0 (CdrRollup.totalRecords_CDR b))
                CdrMinute.totalRecords_CDR
                (λ _, True) (λ _, True) table) as Hsum.
  rewrite (list_filter_iff _ (λ r, is_Some (CdrMinute.date r))) in Hsum.
  - rewrite <- Hsum.
    + f_equal. f_equal. symmetry. by apply filter_all.
    + intros k g. unfold cdr_rollup_agg, combine. simpl.
      unfold counters, minute_counters. simpl.
      destruct g as [|r g]; [done|]. by rewrite sum_some.
    + done.
  - intros r. unfold key_in, cdr_rollup_key.
    destruct (CdrMinute.date r); simpl; split; done.
Qed.

Lemma cdr_minute_gold_dated df b :
  b ∈ cdr_stream_minute_gold df → is_Some (CdrMinute.date b).
Proof.
  intros (ts & r & _ & _ & Hin & ->)%cdr_minute_gold_row.
  unfold cdr_minute_agg. simpl. rewrite first_const; [done|].
  intros E. rewrite E in Hin. by apply not_elem_of_nil in Hin.
Qed.

(** X11. Nothing is lost or counted twice between the levels: over the
    hour table, and over the day table, computed from the minute table
    of a silver stream, the totals add up to the number of silver events
    that carry an event time, as they do over the minute table. *)
Theorem totals_conserved :
  ∀ (df : list (Cdr.row * Tower.row)),
    let n := Z.of_nat (length (filter (λ r, is_Some (Cdr.event_ts r.1)) df)) in
    let table := cdr_stream_minute_gold df in
    Zsum (CdrMinute.totalRecords_CDR <$> table) = n ∧
    Zsum ((λ b, default 0 (CdrRollup.totalRecords_CDR b))
            <$> cdr_stream_hour_gold table) = n ∧
    Zsum ((λ b, default 0 (CdrRollup.totalRecords_CDR b))
            <$> cdr_stream_day_gold table) = n.
Proof.
  intros df n table.
  assert (Zsum (CdrMinute.totalRecords_CDR <$> table) = n) as Hm
    by apply cdr_total_sum.
  assert (filter (λ r, is_Some (CdrMinute.date r)) table = table) as Hall.
  { apply filter_all. intros b Hb. by apply (cdr_minute_gold_dated df). }
  split_and!; [done|..].
  - unfold cdr_stream_hour_gold. by rewrite rollup_total_sum, Hall.
  - unfold cdr_stream_day_gold. by rewrite rollup_total_sum, Hall.
Qed.

(** ** Location columns *)

Lemma cdr_silver_tower towers bronze r :
  r ∈ cdr_stream_silver towers bronze →
  r.2 ∈ towers ∧ Cdr.towerId r.1 ≠ None ∧
  Tower.GlobalID r.2 = Cdr.towerId r.1.
Proof.
  unfold cdr_stream_silver. rewrite elem_of_cdr_table. destruct r as [c t].
  rewrite elem_of_join, col_eq_true. simpl.
  intros ((_ & Ht & s & Hs & Hg) & Hn & _). split_and!; [done|done|congruence].
Qed.

Lemma pcmd_silver_tower towers bronze r :
  r ∈ pcmd_stream_silver towers bronze →
  r.2 ∈ towers ∧ Pcmd.towerId r.1 ≠ None ∧
  Tower.GlobalID r.2 = Pcmd.towerId r.1.
Proof.
  unfold pcmd_stream_silver. rewrite elem_of_pcmd_table. destruct r as [c t].
  rewrite elem_of_join, col_eq_true. simpl.
  intros ((_ & Ht & s & Hs & Hg) & Hn & _). split_and!; [done|done|congruence].
Qed.

(** A non-empty group starts with one of its rows. *)
Lemma group_head `{Countable K} {A} (key : A → option K) k (df : list A) :
  group_of key k df ≠ [] →
  ∃ r g, group_of key k df = r :: g ∧ r ∈ df ∧ key r = Some k.
Proof.
  intros Hne. destruct (group_of key k df) as [|r g] eqn:E; [done|].
  exists r, g. split; [done|]. apply (elem_of_group_of key k df r).
  rewrite E. apply list_elem_of_here.
Qed.

Lemma cdr_minute_located towers bronze b :
  b ∈ cdr_stream_minute_gold (cdr_stream_silver towers bronze) →
  ∃ t, t ∈ towers ∧ located_at (CdrMinute.towerId b) (minute_location b) t.
Proof.
  intros [k [-> Hne]%lookup_agg_Some]%elem_of_rows.
  apply group_head in Hne as (r & g & -> & Hr & Hk).
  apply cdr_silver_tower in Hr as (Ht & Hn & Hg).
  unfold cdr_minute_key in Hk.
  destruct (Cdr.event_ts r.1) as [ts|]; [|done]. simpl in Hk.
  injection Hk as <-. exists r.2. split; [done|].
  unfold located_at. simpl. done.
Qed.

Lemma pcmd_minute_located towers bronze b :
  b ∈ pcmd_stream_minute_gold (pcmd_stream_silver towers bronze) →
  ∃ t, t ∈ towers ∧ located_at (PcmdMinute.towerId b) (pcmd_location b) t.
Proof.
  intros [k [-> Hne]%lookup_agg_Some]%elem_of_rows.
  apply group_head in Hne as (r & g & -> & Hr & Hk).
  apply pcmd_silver_tower in Hr as (Ht & Hn & Hg).
  unfold pcmd_minute_key in Hk.
  destruct (Pcmd.event_ts r.1) as [ts|]; [|done]. simpl in Hk.
  injection Hk as <-. exists r.2. split; [done|].
  unfold located_at. simpl. done.
Qed.

Lemma cdr_rollup_located d towers bronze b :
  b ∈ rows (cdr_rollup_buckets d
              (cdr_stream_minute_gold (cdr_stream_silver towers bronze))) →
  ∃ t, t ∈ towers ∧ located_at (CdrRollup.towerId b) (rollup_location b) t.
Proof.
  intros [k [-> Hne]%lookup_agg_Some]%elem_of_rows.
  apply group_head in Hne as (m & g & -> & Hm & Hk).
  apply cdr_minute_located in Hm as (t & Ht & Hn & Hg & Hloc).
  unfold cdr_rollup_key in Hk.
  destruct (CdrMinute.date m) as [ts|]; [|done]. simpl in Hk.
  injection Hk as <-. exists t. split; [done|].
  unfold located_at. simpl. split_and!; [done|done|].
  rewrite <- Hloc. unfold rollup_location, minute_location. simpl.
  by destruct (CdrMinute.City m), (CdrMinute.County m), (CdrMinute.State m),
    (CdrMinute.Latitude m), (CdrMinute.Longitude m).
Qed.

(** X12. Every row of the gold tables of the pipeline belongs to a tower
    of the directory: its tower id is set and is the GlobalID of a
    directory record, and its city, county, state, latitude and
    longitude are those of that record; for the CDR minute, hour and day
    tables and for the PCMD minute table. *)
Theorem gold_location_from_directory :
  ∀ (towers : list Tower.row) (cdr_bronze : list Cdr.row)
    (pcmd_bronze : list Pcmd.row),
    let table := cdr_stream_minute_gold (cdr_stream_silver towers cdr_bronze) in
    (∀ b, b ∈ table →
       ∃ t, t ∈ towers ∧
            located_at (CdrMinute.towerId b) (minute_location b) t) ∧
    (∀ b, b ∈ cdr_stream_hour_gold table →
       ∃ t, t ∈ towers ∧
            located_at (CdrRollup.towerId b) (rollup_location b) t) ∧
    (∀ b, b ∈ cdr_stream_day_gold table →
       ∃ t, t ∈ towers ∧
            located_at (CdrRollup.towerId b) (rollup_location b) t) ∧
    (∀ b, b ∈ pcmd_stream_minute_gold (pcmd_stream_silver towers pcmd_bronze) →
       ∃ t, t ∈ towers ∧
            located_at (PcmdMinute.towerId b) (pcmd_location b) t).
Proof.
  intros towers cdr_bronze pcmd_bronze table. split_and!.
  - apply cdr_minute_located.
  - apply cdr_rollup_located.
  - apply cdr_rollup_located.
  - apply pcmd_minute_located.
Qed.

Lemma gold_location_from_directory_witness :
  scenario_A_bucket ∈
    cdr_stream_minute_gold (cdr_stream_silver [tower_T1] scenario_A) ∧
  ∃ t, t ∈ [tower_T1] ∧
       located_at (CdrMinute.towerId scenario_A_bucket)
                  (minute_location scenario_A_bucket) t.
Proof.
  assert (scenario_A_bucket ∈
            cdr_stream_minute_gold (cdr_stream_silver [tower_T1] scenario_A))
    as Hin.
  { assert (cdr_stream_minute_gold (cdr_stream_silver [tower_T1] scenario_A)
            = [scenario_A_bucket]) as -> by (vm_compute; reflexivity).
    apply list_elem_of_here. }
  split; [exact Hin|].
  exact (proj1 (gold_location_from_directory [tower_T1] scenario_A [])
           scenario_A_bucket Hin).
Defined.

(** With distinct ids, a tower id names one record. *)
Lemma distinct_ids_unique towers t t' :
  distinct_ids towers → t ∈ towers → t' ∈ towers →
  Tower.GlobalID t ≠ None → Tower.GlobalID t = Tower.GlobalID t' → t = t'.
Proof.
  intros Hd Ht Ht' Hn Hg.
  pose proof (distinct_ids_records towers (Tower.GlobalID t) Hd) as Hl.
  apply not_eq_None_Some in Hn as [s Hs].
  assert (t ∈ tower_records towers (Tower.GlobalID t)) as H1.
  { apply elem_of_tower_records. split; [done|]. by exists s. }
  assert (t' ∈ tower_records towers (Tower.GlobalID t)) as H2.
  { apply elem_of_tower_records. split; [done|]. exists s.
    split; [done|congruence]. }
  destruct (tower_records towers (Tower.GlobalID t)) as [|x [|y l]].
  - by apply not_elem_of_nil in H1.
  - apply list_elem_of_singleton in H1, H2. congruence.
  - simpl in Hl. lia.
Qed.

(** X13. When the ids of the directory are distinct, the location
    columns of the gold rows do not depend on which event of a bucket
    came first: every directory record with the tower id of a row of the
    CDR minute, hour or day table, or of the PCMD minute table, has the
    city, county, state, latitude and longitude of that row. *)
Theorem gold_location_deterministic :
  ∀ (towers : list Tower.row) (cdr_bronze : list Cdr.row)
    (pcmd_bronze : list Pcmd.row),
    distinct_ids towers →
    let table := cdr_stream_minute_gold (cdr_stream_silver towers cdr_bronze) in
    (∀ b t, b ∈ table → t ∈ towers →
       Tower.GlobalID t = CdrMinute.towerId b →
       minute_location b = tower_location t) ∧
    (∀ b t, b ∈ cdr_stream_hour_gold table → t ∈ towers →
       Tower.GlobalID t = CdrRollup.towerId b →
       rollup_location b = tower_location t) ∧
    (∀ b t, b ∈ cdr_stream_day_gold table → t ∈ towers →
       Tower.GlobalID t = CdrRollup.towerId b →
       rollup_location b = tower_location t) ∧
    (∀ b t, b ∈ pcmd_stream_minute_gold (pcmd_stream_silver towers pcmd_bronze) →
       t ∈ towers → Tower.GlobalID t = PcmdMinute.towerId b →
       pcmd_location b = tower_location t).
Proof.
  intros towers cdr_bronze pcmd_bronze Hd table.
  assert (∀ id loc t t', t ∈ towers → located_at id loc t →
            t' ∈ towers → Tower.GlobalID t' = id →
            loc = tower_location t') as Huniq.
  { intros id loc t t' Ht (Hn & Hg & ->) Ht' Hg'. f_equal.
    apply (distinct_ids_unique towers); try done; congruence. }
  split_and!.
  - intros b t' (t & Ht & Hloc)%cdr_minute_located Ht' Hg'.
    exact (Huniq _ _ t t' Ht Hloc Ht' Hg').
  - intros b t' (t & Ht & Hloc)%cdr_rollup_located Ht' Hg'.
    exact (Huniq _ _ t t' Ht Hloc Ht' Hg').
  - intros b t' (t & Ht & Hloc)%cdr_rollup_located Ht' Hg'.
    exact (Huniq _ _ t t' Ht Hloc Ht' Hg').
  - intros b t' (t & Ht & Hloc)%pcmd_minute_located Ht' Hg'.
    exact (Huniq _ _ t t' Ht Hloc Ht' Hg').
Qed.

Lemma gold_location_deterministic_witness :
  distinct_ids [tower_T1] ∧
  minute_location scenario_A_bucket = tower_location tower_T1.
Proof.
  assert (distinct_ids [tower_T1]) as Hd.
  { unfold distinct_ids. simpl. apply NoDup_singleton. }
  split; [exact Hd|].
  apply (proj1 (gold_location_deterministic [tower_T1] scenario_A [] Hd)).
  - assert (cdr_stream_minute_gold (cdr_stream_silver [tower_T1] scenario_A)
            = [scenario_A_bucket]) as -> by (vm_compute; reflexivity).
    apply list_elem_of_here.
  - apply list_elem_of_here.
  - reflexivity.
Defined.

(** ** Batches *)

Lemma count_where_app {A} (P : A → Prop) `{∀ x, Decision (P x)} l1 l2 :
  count_where P (l1 ++ l2) = count_where P l1 + count_where P l2.
Proof. unfold count_where. rewrite list.filter_app, length_app. lia. Qed.

Lemma event_counts_app g1 g2 :
  event_counts (g1 ++ g2) = zip_with Z.add (event_counts g1) (event_counts g2).
Proof.
  unfold event_counts. rewrite !count_where_app, length_app. simpl.
  by rewrite Nat2Z.inj_add.
Qed.

(** The counters of a bucket, zero when the bucket does not exist, are
    the counts of the events of its group. *)
Lemma cdr_bucket_counts df k :
  from_option minute_counts (replicate 6 0) (cdr_minute_buckets df !! k) =
    event_counts (group_of cdr_minute_key k df).
Proof.
  unfold cdr_minute_buckets. rewrite lookup_agg, lookup_groupBy.
  destruct (group_of cdr_minute_key k df) as [|r g]; [done|].
  apply (cdr_minute_agg_counts k (r :: g)).
Qed.

(** X15. The minute aggregation can be fed in batches: for every key,
    the six counters of the bucket of two batches taken together are the
    sums of the counters of the buckets of each batch (zeros where a
    batch has no bucket for the key), and the bucket exists exactly when
    one of the batches has it. *)
Theorem cdr_minute_batches :
  ∀ (df1 df2 : list (Cdr.row * Tower.row)) (k : Key),
    let counts df :=
      from_option minute_counts (replicate 6 0) (cdr_minute_buckets df !! k) in
    counts (df1 ++ df2) = zip_with Z.add (counts df1) (counts df2) ∧
    (is_Some (cdr_minute_buckets (df1 ++ df2) !! k) ↔
       is_Some (cdr_minute_buckets df1 !! k) ∨
       is_Some (cdr_minute_buckets df2 !! k)).
Proof.
  intros df1 df2 k counts. split.
  - unfold counts. by rewrite !cdr_bucket_counts, group_of_app, event_counts_app.
  - unfold cdr_minute_buckets. rewrite !lookup_agg, !lookup_groupBy, group_of_app.
    destruct (group_of cdr_minute_key k df1), (group_of cdr_minute_key k df2);
      simpl; split; try (intros [[? [=]]|[? [=]]]); try (intros [? [=]]); eauto.
Qed.

(** ** Events without event time *)

Lemma groupBy_skip_middle `{Countable K} {A} (key : A → option K) df1 e df2 :
  key e = None → groupBy key (df1 ++ e :: df2) = groupBy key (df1 ++ df2).
Proof.
  intros He. apply map_eq. intros k.
  rewrite !lookup_groupBy, !group_of_app, group_of_cons.
  rewrite decide_False; [done|]. by rewrite He.
Qed.

Lemma groupBy_no_key `{Countable K} {A} (key : A → option K) (df : list A) :
  (∀ r, r ∈ df → key r = None) → groupBy key df = ∅.
Proof.
  induction df as [|r df IH]; intros Hall; [done|].
  simpl. rewrite (Hall r) by left. apply IH. intros r' Hr'. apply Hall. by right.
Qed.

(** X16. An event without event time is in no window: the CDR minute
    table, and the PCMD minute table, are the same with and without it,
    and the CDR minute table is empty exactly when no silver event
    carries an event time. *)
Theorem untimed_event_ignored :
  (∀ (df1 df2 : list (Cdr.row * Tower.row)) (e : Cdr.row * Tower.row),
     Cdr.event_ts e.1 = None →
     cdr_stream_minute_gold (df1 ++ e :: df2) =
       cdr_stream_minute_gold (df1 ++ df2)) ∧
  (∀ (df1 df2 : list (Pcmd.row * Tower.row)) (e : Pcmd.row * Tower.row),
     Pcmd.event_ts e.1 = None →
     pcmd_stream_minute_gold (df1 ++ e :: df2) =
       pcmd_stream_minute_gold (df1 ++ df2)) ∧
  (∀ df : list (Cdr.row * Tower.row),
     cdr_stream_minute_gold df = [] ↔
       ∀ r, r ∈ df → Cdr.event_ts r.1 = None).
Proof.
  split_and!.
  - intros df1 df2 e He. unfold cdr_stream_minute_gold, cdr_minute_buckets.
    rewrite groupBy_skip_middle; [done|]. unfold cdr_minute_key. by rewrite He.
  - intros df1 df2 e He. unfold pcmd_stream_minute_gold, pcmd_minute_buckets.
    rewrite groupBy_skip_middle; [done|]. unfold pcmd_minute_key. by rewrite He.
  - intros df. split.
    + intros E r Hr. pose proof (cdr_total_sum df) as Hsum.
      rewrite E in Hsum. simpl in Hsum.
      destruct (Cdr.event_ts r.1) as [ts|] eqn:Hts; [|done].
      assert (r ∈ filter (λ r, is_Some (Cdr.event_ts r.1)) df) as Hin.
      { apply list_elem_of_filter. split; [by rewrite Hts|done]. }
      destruct (filter (λ r, is_Some (Cdr.event_ts r.1)) df);
        [by apply not_elem_of_nil in Hin|simpl in Hsum; lia].
    + intros Hall. unfold cdr_stream_minute_gold, cdr_minute_buckets.
      rewrite groupBy_no_key; [done|].
      intros r Hr. unfold cdr_minute_key. by rewrite (Hall r Hr).
Qed.

Lemma untimed_event_ignored_witness :
  Cdr.event_ts cdr_no_time = None ∧
  cdr_stream_minute_gold
    (cdr_stream_silver [tower_T1] scenario_A ++ (cdr_no_time, tower_T1) :: [])
  = [scenario_A_bucket].
Proof.
  split; [reflexivity|].
  rewrite (proj1 untimed_event_ignored _ [] (cdr_no_time, tower_T1) eq_refl).
  vm_compute. reflexivity.
Defined.

(** ** Closed form of the PCMD minute table *)

Lemma pcmd_group_event_in df k ts0 :
  k.1 = F.window minute ts0 →
  group_of pcmd_minute_key k df = filter (pcmd_event_in k.1 k.2) df.
Proof.
  intros Hk. unfold group_of. apply list_filter_iff. intros r.
  unfold pcmd_minute_key, pcmd_event_in. destruct k as [w tower]. simpl in *.
  subst w. destruct (Pcmd.event_ts r.1) as [ts|]; simpl.
  - split.
    + intros E.
      assert (F.window minute ts = F.window minute ts0) as Hw by congruence.
      assert (Pcmd.towerId r.1 = tower) as Ht by congruence.
      split; [done|]. exists ts. split; [done|].
      apply (window_eq_iff minute ts0 ts minute_pos) in Hw. exact Hw.
    + intros [-> (ts' & [= <-] & Hin)]. do 2 f_equal.
      apply (window_eq_iff minute ts0 ts minute_pos). exact Hin.
  - split; [done|]. by intros [_ (ts' & [=] & _)].
Qed.

Lemma length_non_null {V} (col : list (option V)) :
  (length (F.non_null col) ≤ length col)%nat.
Proof.
  unfold F.non_null. induction col as [|o col IH]; [done|].
  change (o :: col) with ([o] ++ col). rewrite omap_app, !length_app.
  destruct o; simpl; lia.
Qed.

Lemma durations_of_length id g : (length (durations_of id g) ≤ length g)%nat.
Proof.
  unfold durations_of. etransitivity; [apply length_non_null|].
  unfold dur_when. by rewrite length_fmap.
Qed.

(** X17. A row of the PCMD minute table describes the silver events of
    its tower in its minute: its date is the start of a minute, its total
    is the number of these events, which is at least one, and for each
    tracked procedure the average, maximum and minimum are those of the
    durations of the events among them whose ProcedureId is that
    procedure, and of no other event; there are at most as many of these
    as the total. *)
Theorem pcmd_minute_gold_describes_events :
  ∀ (df : list (Pcmd.row * Tower.row)) (b : PcmdMinute.row),
    b ∈ pcmd_stream_minute_gold df →
    ∃ s, PcmdMinute.date b = Some s ∧ s `mod` minute = 0 ∧
      let evs :=
        filter (pcmd_event_in (s, s + minute) (PcmdMinute.towerId b)) df in
      evs ≠ [] ∧
      PcmdMinute.totalRecords_PCMD b = Z.of_nat (length evs) ∧
      ∀ id, id ∈ tracked →
        let ds := procedure_durations id evs in
        (length ds ≤ length evs)%nat ∧
        avg_dur id b = match ds with [] => None | _ => Some (mean ds) end ∧
        match max_dur id b with
        | None => ds = []
        | Some M => M ∈ ds ∧ ∀ x, x ∈ ds → (x <= M)%Q
        end ∧
        match min_dur id b with
        | None => ds = []
        | Some m => m ∈ ds ∧ ∀ x, x ∈ ds → (m <= x)%Q
        end.
Proof.
  intros df b [k Hk]%elem_of_rows.
  pose proof Hk as Hb. unfold pcmd_minute_buckets in Hk.
  apply lookup_agg_Some in Hk as [Heq Hne].
  destruct (group_head pcmd_minute_key k df Hne) as (r & g & Hg & Hr & Hkey).
  unfold pcmd_minute_key in Hkey.
  destruct (Pcmd.event_ts r.1) as [ts|] eqn:Hts; [|done]. simpl in Hkey.
  injection Hkey as Hkey.
  assert (k.1 = F.window minute ts) as Hk1 by by rewrite <- Hkey.
  destruct (window_floor minute ts minute_pos) as (_ & Hw2 & Hmod).
  assert (((F.window minute ts).1, (F.window minute ts).1 + minute)
          = k.1) as Hw.
  { rewrite Hk1, <- Hw2. by destruct (F.window minute ts). }
  assert (PcmdMinute.towerId b = k.2) as Htid by by rewrite Heq.
  exists (F.window minute ts).1. cbn zeta. rewrite Hw, Htid.
  rewrite <- (pcmd_group_event_in df k ts Hk1).
  split_and!.
  - rewrite Heq. unfold pcmd_minute_agg. simpl. rewrite Hk1.
    by apply first_const.
  - done.
  - done.
  - rewrite Heq. apply pcmd_total_records.
  - intros id Hid. split.
    + rewrite <- durations_of_procedure. apply durations_of_length.
    + by apply pcmd_bucket_procedure_durations.
Qed.

Lemma pcmd_minute_gold_describes_events_witness :
  ∃ b s,
    b ∈ pcmd_stream_minute_gold (pcmd_stream_silver [tower_T1] pcmd_sample) ∧
    PcmdMinute.date b = Some s ∧
    PcmdMinute.totalRecords_PCMD b =
      Z.of_nat (length (filter (pcmd_event_in (s, s + minute)
                                  (PcmdMinute.towerId b))
                               (pcmd_stream_silver [tower_T1] pcmd_sample))).
Proof.
  set (df := pcmd_stream_silver [tower_T1] pcmd_sample).
  destruct (pcmd_stream_minute_gold df) as [|b l] eqn:E;
    [vm_compute in E; discriminate E|].
  assert (b ∈ pcmd_stream_minute_gold df) as Hb.
  { rewrite E. apply list_elem_of_here. }
  rewrite <- E.
  destruct (pcmd_minute_gold_describes_events df b Hb)
    as (s & Hs & _ & _ & Ht & _).
  exists b, s. split_and!; assumption.
Defined.

(** An event of T2, whose feature has no coordinates, is enriched with
    the city of T2 and a null longitude and latitude. *)
Lemma silver_from_geojson_witness :
  ∃ t, (cdr "T2" "call" "answered" (at_ 10 0 15), t) ∈
         cdr_stream_silver (static_tower_data towers_json)
           [cdr "T2" "call" "answered" (at_ 10 0 15)] ∧
       Tower.City t = Some "Y" ∧
       Tower.Longitude t = None ∧ Tower.Latitude t = None.
Proof.
  exists {| Tower.GlobalID := Some "T2"; Tower.City := Some "Y";
            Tower.County := None; Tower.State := None;
            Tower.Longitude := None; Tower.Latitude := None |}.
  split; [|repeat split; reflexivity].
  apply silver_from_geojson. split_and!.
  - apply list_elem_of_here.
  - discriminate.
  - exists (feature "T2" "Y" []), "T2". split_and!.
    + apply list_elem_of_further, list_elem_of_here.
    + repeat split; reflexivity.
    + reflexivity.
    + reflexivity.
Defined.
